(** * Moderation endpoint (api/moderate.js): model and verified properties

    A shallow embedding of the request handler of [src/api/moderate.js]:
    configuration from the environment, the leetspeak normalizer, the
    self-message filter, the two detectors and the response shaping.

    JavaScript strings are sequences of UTF-16 code units; a code unit is
    modelled as a natural number [N] and a string as a list of them.  Built-ins
    whose tables are the engine's ([String.prototype.toLowerCase], the
    conversion of numbers and objects to strings) and the two external
    libraries (leo-profanity, the TFJS toxicity model) are parameters of the
    model. *)

From Stdlib Require Import List NArith ZArith QArith Qabs Qround Bool Lia String Ascii.
Import ListNotations.

Local Open Scope N_scope.

(** ** Strings *)

Definition codeunit := N.
Definition jsstring := list codeunit.

(** The code unit of an ASCII character, and the string of an ASCII literal. *)
Definition ch (a : ascii) : codeunit := N_of_ascii a.
Definition lit (s : string) : jsstring := map ch (list_ascii_of_string s).

Definition SP : codeunit := 32.

Fixpoint str_eqb (a b : jsstring) : bool :=
  match a, b with
  | [], [] => true
  | x :: a', y :: b' => (x =? y) && str_eqb a' b'
  | _, _ => false
  end.

Definition is_empty (s : jsstring) : bool :=
  match s with [] => true | _ => false end.

(** Membership of a code unit in an enumerated class [[...]] and in a range
    [lo-hi] of a regular expression. *)
Definition one_of (cls : list codeunit) (c : codeunit) : bool :=
  existsb (N.eqb c) cls.

Definition in_range (lo hi c : codeunit) : bool :=
  (lo <=? c) && (c <=? hi).

(** [\s] of a regular expression, and the white space [trim] strips: the
    WhiteSpace and LineTerminator code points of ECMAScript (TAB, LF, VT, FF,
    CR, SP, NBSP, U+1680, U+2000..U+200A, LS, PS, U+202F, U+205F, U+3000,
    U+FEFF). *)
Definition is_ws (c : codeunit) : bool :=
  one_of [9; 10; 11; 12; 13; 32; 160; 5760; 8232; 8233; 8239; 8287; 12288; 65279] c
  || in_range 8192 8202 c.

(** [s.replace(/[cls]/g, r)] for a one-character replacement [r]. *)
Definition replace_class (cls : codeunit -> bool) (r : codeunit) (s : jsstring)
  : jsstring :=
  map (fun c => if cls c then r else c) s.

(** [s.replace(/\s{2,}/g, " ")]: every maximal run of two or more white-space
    code units becomes one space; a lone white-space code unit stays as it is.
    [in_run] says that the previous code unit belonged to a run already
    replaced. *)
Fixpoint collapse_runs (in_run : bool) (s : jsstring) : jsstring :=
  match s with
  | [] => []
  | c :: t =>
      if is_ws c then
        if in_run then collapse_runs true t
        else
          match t with
          | d :: _ => if is_ws d then SP :: collapse_runs true t
                      else c :: collapse_runs false t
          | [] => [c]
          end
      else c :: collapse_runs false t
  end.

(** [String.prototype.trim]. *)
Fixpoint trimStart (s : jsstring) : jsstring :=
  match s with
  | [] => []
  | c :: t => if is_ws c then trimStart t else s
  end.

Fixpoint trimEnd (s : jsstring) : jsstring :=
  match s with
  | [] => []
  | c :: t =>
      match trimEnd t with
      | [] => if is_ws c then [] else [c]
      | r => c :: r
      end
  end.

Definition trim (s : jsstring) : jsstring := trimEnd (trimStart s).

(** [String.prototype.includes] and [String.prototype.split] on a
    one-character separator. *)
Fixpoint starts_with (p s : jsstring) : bool :=
  match p, s with
  | [], _ => true
  | _ :: _, [] => false
  | a :: p', b :: s' => (a =? b) && starts_with p' s'
  end.

Fixpoint includes (s sub : jsstring) : bool :=
  starts_with sub s
  || match s with
     | [] => false
     | _ :: t => includes t sub
     end.

Fixpoint split_on (sep : codeunit) (s : jsstring) : list jsstring :=
  match s with
  | [] => [[]]
  | c :: t =>
      if c =? sep then [] :: split_on sep t
      else match split_on sep t with
           | seg :: segs => (c :: seg) :: segs
           | [] => [[c]]
           end
  end.

(** ** The normalizer *)

(** The character classes of [normalize], in source order. *)
Definition cls_i : codeunit -> bool := one_of [ch "!"; 161; ch "1"; ch "|"; ch "i"].
Definition cls_a : codeunit -> bool := one_of [ch "@"; ch "4"].
Definition cls_s : codeunit -> bool := one_of [ch "$"; ch "5"].
Definition cls_o : codeunit -> bool := one_of [ch "0"].
Definition cls_e : codeunit -> bool := one_of [ch "3"].
Definition cls_t : codeunit -> bool := one_of [ch "7"].

(** [[a-z0-9\s@]], the class whose complement the filter step blanks. *)
Definition kept (c : codeunit) : bool :=
  in_range (ch "a") (ch "z") c || in_range (ch "0") (ch "9") c
  || is_ws c || (c =? ch "@").

Section Normalize.

(** [String.prototype.toLowerCase]. *)
Variable toLowerCase : jsstring -> jsstring.

(** The six substitution steps, in source order. *)
Definition leet (s : jsstring) : jsstring :=
  replace_class cls_t (ch "t")
    (replace_class cls_e (ch "e")
      (replace_class cls_o (ch "o")
        (replace_class cls_s (ch "s")
          (replace_class cls_a (ch "a")
            (replace_class cls_i (ch "i") s))))).

Definition normalize (text : jsstring) : jsstring :=
  trim
    (collapse_runs false
      (replace_class (fun c => negb (kept c)) SP
        (leet (toLowerCase text)))).

End Normalize.

(** An instance of [toLowerCase] for strings of Basic Latin and Latin-1 code
    units: A-Z and the Latin-1 capitals (U+00C0..U+00DE but the multiplication
    sign U+00D7) move up by 32; every other code unit stays. *)
Definition lower_latin1 (c : codeunit) : codeunit :=
  if in_range (ch "A") (ch "Z") c
     || (in_range 192 222 c && negb (c =? 215))
  then c + 32 else c.

Definition toLowerCase_latin1 (s : jsstring) : jsstring := map lower_latin1 s.

(** ** Numbers *)

(** A JavaScript number by its exact value: every finite double is a rational
    (both zeros are [Fin 0]), and comparison of doubles is the comparison of
    these values. *)
Inductive num : Type :=
| NaN
| Inf (negative : bool)
| Fin (q : Q).

(** [a >= b]. *)
Definition num_ge (a b : num) : bool :=
  match a, b with
  | NaN, _ | _, NaN => false
  | Inf false, _ => true
  | _, Inf true => true
  | Inf true, _ => false
  | _, Inf false => false
  | Fin x, Fin y => Qle_bool y x
  end.

(** [a === b] on numbers. *)
Definition num_eqb (a b : num) : bool :=
  match a, b with
  | Inf s, Inf s' => Bool.eqb s s'
  | Fin x, Fin y => Qeq_bool x y
  | _, _ => false
  end.

(** Rounding of a non-negative ratio [n / d] to the nearest integer, ties to
    even. *)
Definition round_half_even (n d : Z) : Z :=
  let q := (n / d)%Z in
  match (2 * (n mod d) ?= d)%Z with
  | Lt => q
  | Gt => (q + 1)%Z
  | Eq => if Z.even q then q else (q + 1)%Z
  end.

(** [floor (log2 (n / d))] for positive [n] and [d]. *)
Definition floor_log2 (n d : Z) : Z :=
  let e := (Z.log2 n - Z.log2 d)%Z in
  let above :=
    if (0 <=? e)%Z then (d * 2 ^ e <=? n)%Z else (d <=? n * 2 ^ (- e))%Z in
  if above then e else (e - 1)%Z.

(** The Number value for a mathematical value: IEEE 754 binary64,
    round to nearest, ties to even; subnormals below 2^-1022, infinity from
    2^1024. *)
Definition to_double (q : Q) : num :=
  let n := Z.abs (Qnum q) in
  let d := Zpos (Qden q) in
  let neg := (Qnum q <? 0)%Z in
  if (n =? 0)%Z then Fin 0
  else
    let k := (Z.max (floor_log2 n d) (-1022) - 52)%Z in
    let m :=
      if (0 <=? k)%Z then round_half_even n (d * 2 ^ k)
      else round_half_even (n * 2 ^ (- k)) d in
    let sm := if neg then (- m)%Z else m in
    if (0 <=? k)%Z then
      if (2 ^ 1024 <=? m * 2 ^ k)%Z then Inf neg
      else Fin (inject_Z (sm * 2 ^ k))
    else Fin (Qred (sm # Z.to_pos (2 ^ (- k)))).

(** *** [Number(string)] *)

Definition is_digit (c : codeunit) : bool := in_range (ch "0") (ch "9") c.

Definition digit_val (c : codeunit) : Z := Z.of_N (c - ch "0").

(** The value of a hexadecimal digit, if it is one. *)
Definition hex_val (c : codeunit) : option Z :=
  if is_digit c then Some (digit_val c)
  else if in_range (ch "a") (ch "f") c then Some (Z.of_N (c - ch "a") + 10)%Z
  else if in_range (ch "A") (ch "F") c then Some (Z.of_N (c - ch "A") + 10)%Z
  else None.

Fixpoint span_digits (s : jsstring) : jsstring * jsstring :=
  match s with
  | c :: t =>
      if is_digit c then let (ds, r) := span_digits t in (c :: ds, r)
      else ([], s)
  | [] => ([], [])
  end.

Definition digits_val (ds : jsstring) : Z :=
  fold_left (fun acc c => (10 * acc + digit_val c)%Z) ds 0%Z.

(** The value of a non-empty string of digits in [radix], each below it. *)
Fixpoint radix_val (radix : Z) (acc : Z) (s : jsstring) : option Z :=
  match s with
  | [] => Some acc
  | c :: t =>
      match hex_val c with
      | Some v => if (v <? radix)%Z then radix_val radix (radix * acc + v)%Z t
                  else None
      | None => None
      end
  end.

(** NonDecimalIntegerLiteral: [0x], [0o], [0b] (either case), unsigned. *)
Definition non_decimal (s : jsstring) : option Z :=
  match s with
  | z :: p :: ((_ :: _) as ds) =>
      if z =? ch "0" then
        if one_of [ch "x"; ch "X"] p then radix_val 16 0 ds
        else if one_of [ch "o"; ch "O"] p then radix_val 8 0 ds
        else if one_of [ch "b"; ch "B"] p then radix_val 2 0 ds
        else None
      else None
  | _ => None
  end.

(** ExponentPart, optional: the exponent, or [None] when what follows the
    mantissa is not one. *)
Definition exponent_part (s : jsstring) : option Z :=
  match s with
  | [] => Some 0%Z
  | e :: r =>
      if one_of [ch "e"; ch "E"] e then
        let (neg, r') :=
          match r with
          | sg :: r' =>
              if sg =? ch "-" then (true, r')
              else if sg =? ch "+" then (false, r')
              else (false, r)
          | [] => (false, r)
          end in
        match span_digits r' with
        | ((_ :: _) as ds, []) =>
            Some (if neg then (- digits_val ds)%Z else digits_val ds)
        | _ => None
        end
      else None
  end.

(** The mathematical value [mant * 10^e]. *)
Definition scale10 (mant e : Z) : Q :=
  if (0 <=? e)%Z then inject_Z (mant * 10 ^ e)
  else mant # Z.to_pos (10 ^ (- e)).

(** StrUnsignedDecimalLiteral but [Infinity]: its mathematical value. *)
Definition unsigned_decimal (s : jsstring) : option Q :=
  let (ip, r1) := span_digits s in
  let '(fp, r2, ok) :=
    match r1 with
    | dot :: r =>
        if dot =? ch "." then
          let (fp, r2) := span_digits r in
          (fp, r2, negb (is_empty ip) || negb (is_empty fp))
        else ([], r1, negb (is_empty ip))
    | [] => ([], r1, negb (is_empty ip))
    end in
  if ok then
    match exponent_part r2 with
    | Some e =>
        Some (scale10 (digits_val (ip ++ fp)) (e - Z.of_nat (List.length fp)))
    | None => None
    end
  else None.

(** StrDecimalLiteral: an optional sign, then [Infinity] or a decimal. *)
Definition str_decimal (s : jsstring) : num :=
  let (neg, u) :=
    match s with
    | sg :: r =>
        if sg =? ch "-" then (true, r)
        else if sg =? ch "+" then (false, r)
        else (false, s)
    | [] => (false, s)
    end in
  if str_eqb u (lit "Infinity") then Inf neg
  else
    match unsigned_decimal u with
    | Some q => to_double (if neg then Qopp q else q)
    | None => NaN
    end.

(** [Number(s)] for a string [s] (StringToNumber): white space around the
    literal is skipped, the empty literal is 0, and anything that is not a
    StringNumericLiteral is NaN. *)
Definition Number (s : jsstring) : num :=
  let t := trim s in
  if is_empty t then Fin 0
  else
    match non_decimal t with
    | Some n => to_double (inject_Z n)
    | None => str_decimal t
    end.

(** [Number(x.toFixed(4))]: below 10^21 the nearest multiple of 10^-4 of the
    magnitude (the larger one on a tie), read back as a number. *)
Definition toFixed4 (x : num) : num :=
  match x with
  | Fin q =>
      if Qle_bool (inject_Z (10 ^ 21)) (Qabs q) then x
      else
        let n := Qfloor (Qabs q * inject_Z 10000 + (1 # 2)) in
        to_double ((if (Qnum q <? 0)%Z then (- n)%Z else n) # 10000)
  | _ => x
  end.

(** ** Configuration (from the environment) *)

(** [process.env]: each variable is undefined or a string. *)
Record Env : Type := {
  env_TOXICITY_THRESHOLD : option jsstring;
  env_TOXICITY_LABELS : option jsstring;
  env_CORS_ALLOW_ORIGIN : option jsstring;
  env_FOUL_CUSTOM_WORDS : option jsstring
}.

(** [v || d] for an environment variable [v]: undefined and the empty string
    are falsy. *)
Definition or_default (v : option jsstring) (d : jsstring) : jsstring :=
  match v with
  | Some ((_ :: _) as s) => s
  | _ => d
  end.

(** [s.split(",").map(s => s.trim()).filter(Boolean)]. *)
Definition csv (s : jsstring) : list jsstring :=
  filter (fun e => negb (is_empty e)) (map trim (split_on (ch ",") s)).

Definition default_labels_csv : jsstring :=
  lit "identity_attack,insult,obscene,sexual_explicit,threat,severe_toxicity".

Definition default_labels : list jsstring :=
  [lit "identity_attack"; lit "insult"; lit "obscene"; lit "sexual_explicit";
   lit "threat"; lit "severe_toxicity"].

Definition THRESH (e : Env) : num :=
  Number (or_default (env_TOXICITY_THRESHOLD e) (lit "0.85")).

Definition LABELS (e : Env) : list jsstring :=
  csv (or_default (env_TOXICITY_LABELS e) default_labels_csv).

Definition CORS_ALLOW_ORIGIN (e : Env) : jsstring :=
  or_default (env_CORS_ALLOW_ORIGIN e) (lit "*").

Definition CUSTOM_WORDS (e : Env) : list jsstring :=
  csv (or_default (env_FOUL_CUSTOM_WORDS e) []).

Definition no_env : Env :=
  {| env_TOXICITY_THRESHOLD := None; env_TOXICITY_LABELS := None;
     env_CORS_ALLOW_ORIGIN := None; env_FOUL_CUSTOM_WORDS := None |}.

(** ** Values, requests and responses *)

#[local] Set Warnings "-register-all".

Inductive jsval : Type :=
| VUndefined
| VNull
| VBool (b : bool)
| VNum (x : num)
| VStr (s : jsstring)
| VArr (items : list jsval)
| VObj (props : list (jsstring * jsval)).

(** ToBoolean. *)
Definition truthy (v : jsval) : bool :=
  match v with
  | VUndefined | VNull => false
  | VBool b => b
  | VNum NaN => false
  | VNum (Inf _) => true
  | VNum (Fin q) => negb (Qeq_bool q 0)
  | VStr s => negb (is_empty s)
  | VArr _ | VObj _ => true
  end.

(** [typeof v === "string"], and the string of a string value. *)
Definition is_string (v : jsval) : bool :=
  match v with VStr _ => true | _ => false end.

Definition str_of (v : jsval) : jsstring :=
  match v with VStr s => s | _ => [] end.

Fixpoint lookup (k : jsstring) (props : list (jsstring * jsval)) : option jsval :=
  match props with
  | [] => None
  | (k', v) :: r => if str_eqb k k' then Some v else lookup k r
  end.

(** [o[k]] for one of the keys the handler reads: only an object parsed from
    the request has them; on any other value the property is undefined. *)
Definition get_prop (o : jsval) (k : jsstring) : jsval :=
  match o with
  | VObj props => match lookup k props with Some v => v | None => VUndefined end
  | _ => VUndefined
  end.

(** [o[k] = v]. *)
Fixpoint obj_set (k : jsstring) (v : jsval) (props : list (jsstring * jsval))
  : list (jsstring * jsval) :=
  match props with
  | [] => [(k, v)]
  | (k', v') :: r =>
      if str_eqb k k' then (k, v) :: r else (k', v') :: obj_set k v r
  end.

(** The default of a destructuring pattern [{ k = d }]: taken when the
    property is undefined. *)
Definition default_to (v d : jsval) : jsval :=
  match v with VUndefined => d | _ => v end.

(** [a.includes(x)] for an array of strings. *)
Definition array_includes (a : list jsstring) (x : jsstring) : bool :=
  existsb (str_eqb x) a.

Record request : Type := {
  req_method : jsstring;
  req_body : jsval
}.

Record response : Type := {
  status : N;
  headers : list (jsstring * jsstring);
  res_body : option jsval
}.

(** A thrown error, by its message. *)
Definition exn := jsstring.

(** What the toxicity model returns for one label. *)
Record result : Type := {
  probabilities : option (list num);
  matched : option bool
}.

Record prediction : Type := {
  label : jsstring;
  results : option (list result)
}.

(** A loaded model, by its [classify] method. *)
Definition model := list jsstring -> exn + list prediction.

(** The module-level cache [modelPromise]: unset, or the settled promise. *)
Record state : Type := {
  modelPromise : option (exn + model)
}.

(** The calls a request makes, in order. *)
Inductive call : Type :=
| CallNormalize (text : jsstring)
| CallLeoCheck (norm : jsstring)
| CallToxicityLoad (threshold : num) (labels : list jsstring)
| CallClassify (inputs : list jsstring)
| CallConsoleError (detail : exn).

(** [p.results?.[0]?.probabilities?.[1] ?? 0]. *)
Definition score_of (p : prediction) : num :=
  match results p with
  | Some (r :: _) =>
      match probabilities r with
      | Some (_ :: x :: _) => x
      | _ => Fin 0
      end
  | _ => Fin 0
  end.

Section Handler.

(** [String.prototype.toLowerCase]. *)
Variable toLowerCase : jsstring -> jsstring.
(** The string of a number and of an object or array in a template literal;
    the latter may throw. *)
Variable NumberToString : num -> jsstring.
Variable ObjectToString : jsval -> exn + jsstring.
(** [leo.check] once the list holds the English dictionary and the given
    added words. *)
Variable leo_check : list jsstring -> jsstring -> bool.
(** [toxicity.load]. *)
Variable toxicity_load : num -> list jsstring -> exn + model.
(** [process.env]. *)
Variable env : Env.

Definition getModel (st : state) : state * list call * (exn + model) :=
  match modelPromise st with
  | Some settled => (st, [], settled)
  | None =>
      let settled := toxicity_load (THRESH env) (LABELS env) in
      ({| modelPromise := Some settled |},
       [CallToxicityLoad (THRESH env) (LABELS env)], settled)
  end.

Definition setCors : list (jsstring * jsstring) :=
  [(lit "Access-Control-Allow-Origin", CORS_ALLOW_ORIGIN env);
   (lit "Access-Control-Allow-Methods", lit "POST,OPTIONS");
   (lit "Access-Control-Allow-Headers", lit "Content-Type, Authorization")].

(** [res.status(code).json(v)] and [res.status(code).end()]. *)
Definition json (code : N) (v : jsval) : response :=
  {| status := code; headers := setCors; res_body := Some v |}.

Definition ended (code : N) : response :=
  {| status := code; headers := setCors; res_body := None |}.

(** A template literal [`${v}`]. *)
Definition ToString (v : jsval) : exn + jsstring :=
  match v with
  | VStr s => inr s
  | VUndefined => inr (lit "undefined")
  | VNull => inr (lit "null")
  | VBool true => inr (lit "true")
  | VBool false => inr (lit "false")
  | VNum x => inr (NumberToString x)
  | VArr _ | VObj _ => ObjectToString v
  end.

(** The anti-loop condition. *)
Definition self_message (fromUser botName : jsval) : exn + bool :=
  if truthy botName && truthy fromUser then
    match ToString fromUser with
    | inl e => inl e
    | inr f =>
        match ToString botName with
        | inl e => inl e
        | inr b => inr (includes (toLowerCase f) (toLowerCase b))
        end
    end
  else inr false.

(** One turn of the loop over the predictions, on [(scores, toxicHit)]. *)
Definition score_step (acc : list (jsstring * jsval) * bool) (p : prediction)
  : list (jsstring * jsval) * bool :=
  let score := score_of p in
  (obj_set (label p) (VNum (toFixed4 score)) (fst acc),
   if array_includes (LABELS env) (label p) && num_ge score (THRESH env)
   then true else snd acc).

Definition score_loop (preds : list prediction)
  : list (jsstring * jsval) * bool :=
  fold_left score_step preds ([], false).

Definition text_required : jsval := VObj [(lit "error", VStr (lit "text_required"))].

Definition skipped : jsval :=
  VObj [(lit "foul", VBool false); (lit "skipped", VBool true);
        (lit "reason", VStr (lit "self_message"))].

Definition moderation_failed : jsval :=
  VObj [(lit "error", VStr (lit "moderation_failed"))].

Definition method_not_allowed : jsval :=
  VObj [(lit "error", VStr (lit "method_not_allowed"))].

Definition verdict (foul : bool) (text norm : jsstring) (lexiconProfane : bool)
    (scores : list (jsstring * jsval)) : jsval :=
  VObj [(lit "foul", VBool foul);
        (lit "input", VStr text);
        (lit "norm", VStr norm);
        (lit "reasons",
         VObj [(lit "lexiconProfanity", VBool lexiconProfane);
               (lit "toxicityScores", VObj scores);
               (lit "threshold", VNum (THRESH env));
               (lit "labels", VArr (map VStr (LABELS env)))])].

(** The body of the [try]: the response, or the error thrown. *)
Definition try_block (st : state) (req : request)
  : state * list call * (exn + response) :=
  let body := if truthy (req_body req) then req_body req else VObj [] in
  let text := default_to (get_prop body (lit "text")) (VStr []) in
  let fromUser := default_to (get_prop body (lit "fromUser")) (VStr []) in
  let botName := default_to (get_prop body (lit "botName")) (VStr []) in
  if negb (truthy text) || negb (is_string text) then
    (st, [], inr (json 400 text_required))
  else
    match self_message fromUser botName with
    | inl e => (st, [], inl e)
    | inr true => (st, [], inr (json 200 skipped))
    | inr false =>
        let norm := normalize toLowerCase (str_of text) in
        let lexiconProfane := leo_check (CUSTOM_WORDS env) norm in
        let '(st1, loaded, m) := getModel st in
        let calls :=
          [CallNormalize (str_of text); CallLeoCheck norm] ++ loaded in
        match m with
        | inl e => (st1, calls, inl e)
        | inr classify =>
            match classify [norm] with
            | inl e => (st1, calls ++ [CallClassify [norm]], inl e)
            | inr preds =>
                let (scores, toxicHit) := score_loop preds in
                let foul := lexiconProfane || toxicHit in
                (st1, calls ++ [CallClassify [norm]],
                 inr (json 200
                        (verdict foul (str_of text) norm lexiconProfane scores)))
            end
        end
    end.

Definition handler (st : state) (req : request)
  : state * list call * response :=
  if str_eqb (req_method req) (lit "OPTIONS") then (st, [], ended 204)
  else if negb (str_eqb (req_method req) (lit "POST")) then
    (st, [], json 405 method_not_allowed)
  else
    match try_block st req with
    | (st1, calls, inr r) => (st1, calls, r)
    | (st1, calls, inl e) =>
        (st1, calls ++ [CallConsoleError e], json 500 moderation_failed)
    end.

End Handler.

(** The response and the calls of a handler run. *)
Definition response_of (r : state * list call * response) : response := snd r.
Definition calls_of (r : state * list call * response) : list call := snd (fst r).

(** ** Definitions used in the statements and proofs *)

(** The six substitutions on one code unit, and the whole per-code-unit part
    of [normalize] (substitutions, then the filter). *)
Definition leet_char (c : codeunit) : codeunit :=
  let c := if cls_i c then ch "i" else c in
  let c := if cls_a c then ch "a" else c in
  let c := if cls_s c then ch "s" else c in
  let c := if cls_o c then ch "o" else c in
  let c := if cls_e c then ch "e" else c in
  if cls_t c then ch "t" else c.

Definition norm_char (c : codeunit) : codeunit :=
  let d := leet_char c in if negb (kept d) then SP else d.

(** The code units that some substitution class names. *)
Definition substituted : list codeunit :=
  [ch "!"; 161; ch "1"; ch "|"; ch "i"; ch "@"; ch "4"; ch "$"; ch "5";
   ch "0"; ch "3"; ch "7"].

(** Whether a string starts with white space, and whether it has no two
    adjacent white-space code units. *)
Definition head_ws (s : jsstring) : bool :=
  match s with c :: _ => is_ws c | [] => false end.

Fixpoint no_run (s : jsstring) : bool :=
  match s with
  | [] => true
  | c :: t => negb (is_ws c && head_ws t) && no_run t
  end.

(** What every code unit of a normalized string satisfies. *)
Definition settled (c : codeunit) : bool := kept c && (norm_char c =? c).

(** What the idempotence of [normalize] asks of [toLowerCase]: a string of
    lower-case letters, digits, white space and [@] has no upper-case
    character to convert. *)
Definition fixes_kept (lower : jsstring -> jsstring) : Prop :=
  forall s, forallb kept s = true -> lower s = s.

Definition comma_or_ws (c : codeunit) : bool := (c =? ch ",") || is_ws c.

(** The property [k] of the request body as the handler destructures it,
    with the default [""] ([get_prop_body] below: reading it from
    [req.body || {}] or from [req.body] is the same), and the property [k]
    of a JSON response. *)
Definition field (req : request) (k : string) : jsval :=
  default_to (get_prop (req_body req) (lit k)) (VStr []).

Definition res_prop (r : response) (k : string) : jsval :=
  match res_body r with
  | Some v => get_prop v (lit k)
  | None => VUndefined
  end.

(** The toxic-hit test of the loop for one prediction. *)
Definition qualifies (e : Env) (p : prediction) : bool :=
  array_includes (LABELS e) (label p) && num_ge (score_of p) (THRESH e).

(** *** Instances for the examples *)

Definition env_with_labels (s : jsstring) : Env :=
  {| env_TOXICITY_THRESHOLD := None; env_TOXICITY_LABELS := Some s;
     env_CORS_ALLOW_ORIGIN := None; env_FOUL_CUSTOM_WORDS := None |}.

Definition env_with_threshold (s : jsstring) : Env :=
  {| env_TOXICITY_THRESHOLD := Some s; env_TOXICITY_LABELS := None;
     env_CORS_ALLOW_ORIGIN := None; env_FOUL_CUSTOM_WORDS := None |}.

(** A lexicon of one base word, and a model that gives one label one score. *)
Definition demo_leo (added : list jsstring) (norm : jsstring) : bool :=
  existsb (includes norm) (lit "idiot" :: added).

Definition demo_prediction (l : jsstring) (x : num) : prediction :=
  {| label := l;
     results := Some [{| probabilities := Some [Fin 0; x]; matched := None |}] |}.

Definition demo_classify (x : num) : model :=
  fun _ => inr [demo_prediction (lit "insult") x].

Definition demo_load (x : num) (_ : num) (_ : list jsstring) : exn + model :=
  inr (demo_classify x).

Definition failing_load (_ : num) (_ : list jsstring) : exn + model :=
  inl (lit "fetch failed").

Definition demo_number_string (_ : num) : jsstring := lit "0".

Definition demo_object_string (_ : jsval) : exn + jsstring :=
  inr (lit "[object Object]").

Definition cold : state := {| modelPromise := None |}.

Definition post (body : jsval) : request :=
  {| req_method := lit "POST"; req_body := body |}.

(** A message for the lexicon, and a message of the bot itself. *)
Definition idiot_request : request :=
  post (VObj [(lit "text", VStr (lit "You are such an idiot!!!"))]).

Definition own_request (text : jsstring) : request :=
  post (VObj [(lit "text", VStr text);
              (lit "fromUser", VStr (lit "ModBot-7"));
              (lit "botName", VStr (lit "modbot"))]).

Definition demo_handler (load : num -> list jsstring -> exn + model)
  : state -> request -> state * list call * response :=
  handler toLowerCase_latin1 demo_number_string demo_object_string demo_leo
    load no_env.

(** *** Definitions for the further properties *)

(** The alphabet of a normalized string: lower-case letters, the digits no
    substitution names, white space. *)
Definition out_char (c : codeunit) : bool :=
  in_range (ch "a") (ch "z") c
  || one_of [ch "2"; ch "6"; ch "8"; ch "9"] c
  || is_ws c.

(** Whether a string ends with white space. *)
Fixpoint last_ws (s : jsstring) : bool :=
  match s with
  | [] => false
  | [c] => is_ws c
  | _ :: t => last_ws t
  end.

(** The code units of a string that are not white space, in order. *)
Definition non_ws (s : jsstring) : jsstring :=
  filter (fun c => negb (is_ws c)) s.

(** [a.join(sep)] for an array of strings and a one-character separator. *)
Fixpoint join (sep : codeunit) (a : list jsstring) : jsstring :=
  match a with
  | [] => []
  | e :: r => e ++ match r with [] => [] | _ :: _ => sep :: join sep r end
  end.

(** An entry that [csv] returns as it is: not empty, no comma, no white
    space at either end. *)
Definition clean_entry (e : jsstring) : Prop :=
  e <> [] /\ ~ In (ch ",") e /\ head_ws e = false /\ last_ws e = false.

(** Requests handled one after another by one process, each on the cache the
    previous one left: the final cache and all the calls made. *)
Fixpoint serve (h : state -> request -> state * list call * response)
    (st : state) (reqs : list request) : state * list call :=
  match reqs with
  | [] => (st, [])
  | req :: rest =>
      let '(st1, calls, _) := h st req in
      let (st2, later) := serve h st1 rest in
      (st2, calls ++ later)
  end.

Definition is_load (c : call) : bool :=
  match c with CallToxicityLoad _ _ => true | _ => false end.

Definition is_console_error (c : call) : bool :=
  match c with CallConsoleError _ => true | _ => false end.


(** A cache that holds a failed load. *)
Definition failed_cache : state :=
  {| modelPromise := Some (inl (lit "fetch failed")) |}.

(** * Properties *)

#[local] Arguments is_ws : simpl never.
#[local] Arguments kept : simpl never.
#[local] Arguments leet_char : simpl never.
#[local] Arguments norm_char : simpl never.

(** ** Code units *)

Lemma str_eqb_eq a : forall b, str_eqb a b = true <-> a = b.
Proof.
  induction a as [|x a IH]; intros [|y b]; cbn [str_eqb];
    try (split; [discriminate|congruence]); [tauto|].
  rewrite andb_true_iff, N.eqb_eq, IH.
  split; [intros []|intros [=]]; subst; auto.
Qed.

Lemma one_of_notin l c : ~ In c l -> one_of l c = false.
Proof.
  unfold one_of. induction l as [|k l IH]; simpl; intros H; [reflexivity|].
  rewrite IH by tauto.
  destruct (N.eqb_spec c k); [subst; tauto | reflexivity].
Qed.

(** A class is off on a code unit outside [substituted]. *)
Ltac class_off H :=
  let Hin := fresh "Hin" in
  apply one_of_notin; intro Hin; apply H; vm_compute in Hin; vm_compute; tauto.

(** Case analysis on a code unit: one of [substituted], or none of them. *)
Ltac by_substituted c Hout :=
  let Hin := fresh "Hin" in
  destruct (in_dec N.eq_dec c substituted) as [Hin | Hout];
  [ repeat (destruct Hin as [<- | Hin];
            [ vm_compute; try reflexivity; try discriminate | ]);
    destruct Hin
  | ].

Lemma leet_char_other c : ~ In c substituted -> leet_char c = c.
Proof.
  intros H. unfold leet_char.
  assert (Hi : cls_i c = false) by class_off H.
  assert (Ha : cls_a c = false) by class_off H.
  assert (Hs : cls_s c = false) by class_off H.
  assert (Ho : cls_o c = false) by class_off H.
  assert (He : cls_e c = false) by class_off H.
  assert (Ht : cls_t c = false) by class_off H.
  cbv zeta. now rewrite Hi, Ha, Hs, Ho, He, Ht.
Qed.

Lemma leet_char_idem c : leet_char (leet_char c) = leet_char c.
Proof.
  by_substituted c Hout. now rewrite !(leet_char_other c Hout).
Qed.

Lemma leet_char_not_at c : leet_char c <> ch "@".
Proof.
  by_substituted c Hout. rewrite leet_char_other by assumption.
  intros ->. apply Hout. vm_compute. tauto.
Qed.

Lemma norm_char_kept c : kept (norm_char c) = true.
Proof.
  unfold norm_char. cbv zeta.
  destruct (kept (leet_char c)) eqn:E; cbn [negb]; [exact E | reflexivity].
Qed.

Lemma norm_char_idem c : norm_char (norm_char c) = norm_char c.
Proof.
  unfold norm_char. cbv zeta.
  destruct (kept (leet_char c)) eqn:E; cbn [negb].
  - now rewrite leet_char_idem, E.
  - reflexivity.
Qed.

Lemma norm_char_not_at c : norm_char c <> ch "@".
Proof.
  unfold norm_char. cbv zeta. destruct (kept (leet_char c)); cbn [negb].
  - apply leet_char_not_at.
  - discriminate.
Qed.

Lemma settled_norm_char c : settled (norm_char c) = true.
Proof.
  unfold settled. rewrite norm_char_kept, norm_char_idem.
  now rewrite N.eqb_refl.
Qed.

(** ** Strings *)

Lemma leet_map s : leet s = map leet_char s.
Proof.
  unfold leet, replace_class. rewrite !map_map. reflexivity.
Qed.

Lemma collapse_in_run_head s : head_ws (collapse_runs true s) = false.
Proof.
  induction s as [|c t IH]; simpl; [reflexivity|].
  destruct (is_ws c) eqn:E; simpl; [exact IH | exact E].
Qed.

Lemma collapse_head s :
  head_ws s = false -> head_ws (collapse_runs false s) = false.
Proof.
  destruct s as [|c t]; simpl; [reflexivity|].
  intros E. rewrite E. simpl. exact E.
Qed.

Lemma collapse_no_run s : forall b, no_run (collapse_runs b s) = true.
Proof.
  induction s as [|c t IH]; intros b; simpl; [reflexivity|].
  destruct (is_ws c) eqn:Ec.
  - destruct b; [apply IH|].
    destruct t as [|d t']; [simpl; now rewrite Ec|].
    destruct (is_ws d) eqn:Ed.
    + change (no_run (SP :: collapse_runs true (d :: t')) = true).
      cbn [no_run]. rewrite collapse_in_run_head, IH. reflexivity.
    + cbn [no_run]. rewrite collapse_head by exact Ed.
      rewrite IH. now rewrite andb_false_r.
  - cbn [no_run]. rewrite Ec, IH. reflexivity.
Qed.

Lemma collapse_fixed s : no_run s = true -> collapse_runs false s = s.
Proof.
  induction s as [|c t IH]; simpl; [reflexivity|].
  intros H. apply andb_true_iff in H as [H1 H2].
  destruct (is_ws c).
  - destruct t as [|d t']; [reflexivity|].
    simpl in H1. destruct (is_ws d); [discriminate|].
    now rewrite IH.
  - now rewrite IH.
Qed.

Section Preserved.

Variable P : codeunit -> bool.

Lemma collapse_forallb s : forall b,
  P SP = true -> forallb P s = true -> forallb P (collapse_runs b s) = true.
Proof.
  induction s as [|c t IH]; intros b HS H; simpl; [reflexivity|].
  simpl in H. apply andb_true_iff in H as [Hc Ht].
  destruct (is_ws c).
  - destruct b; [now apply IH|].
    destruct t as [|d t']; [simpl; now rewrite Hc|].
    destruct (is_ws d).
    + change (forallb P (SP :: collapse_runs true (d :: t')) = true).
      cbn [forallb]. rewrite HS. now apply IH.
    + cbn [forallb]. rewrite Hc. now apply IH.
  - cbn [forallb]. rewrite Hc. now apply IH.
Qed.

Lemma trimStart_forallb s :
  forallb P s = true -> forallb P (trimStart s) = true.
Proof.
  induction s as [|c t IH]; simpl; [reflexivity|].
  intros H. destruct (is_ws c); [|exact H].
  apply andb_true_iff in H as [_ H]. now apply IH.
Qed.

Lemma trimEnd_forallb s :
  forallb P s = true -> forallb P (trimEnd s) = true.
Proof.
  induction s as [|c t IH]; simpl; [reflexivity|].
  intros H. apply andb_true_iff in H as [Hc Ht].
  specialize (IH Ht).
  destruct (trimEnd t) as [|d r].
  - destruct (is_ws c); simpl; [reflexivity | now rewrite Hc].
  - cbn [forallb]. cbn [forallb] in IH. now rewrite Hc.
Qed.

End Preserved.

Lemma trimStart_no_run s : no_run s = true -> no_run (trimStart s) = true.
Proof.
  induction s as [|c t IH]; [reflexivity|].
  intros H. cbn [trimStart]. destruct (is_ws c); [|exact H].
  cbn [no_run] in H. apply andb_true_iff in H as [_ H]. now apply IH.
Qed.

Lemma trimEnd_head s : head_ws (trimEnd s) = true -> head_ws s = true.
Proof.
  destruct s as [|c t]; simpl; [discriminate|].
  destruct (trimEnd t); [destruct (is_ws c) eqn:E; simpl; congruence | simpl; trivial].
Qed.

Lemma trimEnd_no_run s : no_run s = true -> no_run (trimEnd s) = true.
Proof.
  induction s as [|c t IH]; simpl; [reflexivity|].
  intros H. apply andb_true_iff in H as [H1 H2].
  specialize (IH H2).
  destruct (trimEnd t) as [|d r] eqn:E.
  - destruct (is_ws c) eqn:Ec; simpl; [reflexivity | now rewrite Ec].
  - cbn [no_run]. cbn [no_run] in IH. rewrite IH, andb_true_r.
    destruct (is_ws c); [|reflexivity].
    destruct (head_ws (d :: r)) eqn:Eh; [|reflexivity].
    rewrite <- E in Eh. apply trimEnd_head in Eh. now rewrite Eh in H1.
Qed.

Lemma trimStart_fixed s : head_ws s = false -> trimStart s = s.
Proof.
  destruct s as [|c t]; simpl; [reflexivity|]. now intros ->.
Qed.

Lemma trimStart_head s : head_ws (trimStart s) = false.
Proof.
  induction s as [|c t IH]; simpl; [reflexivity|].
  destruct (is_ws c) eqn:E; [exact IH | exact E].
Qed.

Lemma trimEnd_idem s : trimEnd (trimEnd s) = trimEnd s.
Proof.
  induction s as [|c t IH]; simpl; [reflexivity|].
  destruct (trimEnd t) as [|d r] eqn:E.
  - destruct (is_ws c) eqn:Ec; simpl; [reflexivity | now rewrite Ec].
  - cbn [trimEnd]. cbn [trimEnd] in IH. now rewrite IH.
Qed.

Lemma trim_idem s : trim (trim s) = trim s.
Proof.
  unfold trim.
  rewrite (trimStart_fixed (trimEnd (trimStart s))).
  - apply trimEnd_idem.
  - destruct (head_ws (trimEnd (trimStart s))) eqn:E; [|reflexivity].
    apply trimEnd_head in E. now rewrite trimStart_head in E.
Qed.

Lemma map_fixed (f : codeunit -> codeunit) s :
  forallb (fun c => f c =? c) s = true -> map f s = s.
Proof.
  induction s as [|c t IH]; simpl; [reflexivity|].
  intros H. apply andb_true_iff in H as [Hc Ht].
  apply N.eqb_eq in Hc. now rewrite Hc, IH.
Qed.

Lemma normalize_shape lower x :
  normalize lower x = trim (collapse_runs false (map norm_char (lower x))).
Proof.
  unfold normalize, replace_class. rewrite leet_map, map_map. reflexivity.
Qed.

(** ** The normalizer *)

Lemma normalize_settled lower x : forallb settled (normalize lower x) = true.
Proof.
  rewrite normalize_shape. unfold trim.
  apply trimEnd_forallb, trimStart_forallb, collapse_forallb; [reflexivity|].
  rewrite forallb_forall. intros c Hc. apply in_map_iff in Hc as [d [<- _]].
  apply settled_norm_char.
Qed.

Lemma normalize_no_run lower x : no_run (normalize lower x) = true.
Proof.
  rewrite normalize_shape. unfold trim.
  apply trimEnd_no_run, trimStart_no_run, collapse_no_run.
Qed.

Lemma normalize_trimmed lower x : trim (normalize lower x) = normalize lower x.
Proof. rewrite normalize_shape. apply trim_idem. Qed.

(** C2: [normalize] is idempotent and maps the empty string to the empty
    string, for a [toLowerCase] that leaves strings of lower-case letters,
    digits, white space and [@] as they are. *)
Theorem normalize_idempotent lower :
  fixes_kept lower ->
  (forall x, normalize lower (normalize lower x) = normalize lower x)
  /\ normalize lower [] = [].
Proof.
  intros Hl.
  assert (Hparts : forall y, forallb settled y = true ->
            forallb kept y = true /\ forallb (fun c => norm_char c =? c) y = true).
  { intros y Hs. rewrite !forallb_forall in *.
    split; intros c Hc; specialize (Hs c Hc); unfold settled in Hs;
      now apply andb_true_iff in Hs. }
  split.
  - intros x.
    destruct (Hparts _ (normalize_settled lower x)) as [Hk Hf].
    rewrite (normalize_shape lower (normalize lower x)).
    rewrite (Hl _ Hk), (map_fixed _ _ Hf).
    rewrite collapse_fixed by apply normalize_no_run.
    apply normalize_trimmed.
  - rewrite normalize_shape, Hl by reflexivity. reflexivity.
Qed.

(** C8: no [@] reaches the filter step of [normalize], and none is in its
    output: the substitution of [a] for [@] comes first. *)
Theorem normalize_has_no_at lower x :
  ~ In (ch "@") (leet (lower x)) /\ ~ In (ch "@") (normalize lower x).
Proof.
  split.
  - rewrite leet_map. intros H. apply in_map_iff in H as [c [H _]].
    now apply leet_char_not_at in H.
  - intros H. pose proof (normalize_settled lower x) as Hs.
    rewrite forallb_forall in Hs. specialize (Hs _ H).
    unfold settled in Hs. apply andb_true_iff in Hs as [_ Hs].
    apply N.eqb_eq in Hs. now apply norm_char_not_at in Hs.
Qed.

(** The Basic Latin and Latin-1 instance of [toLowerCase] meets the
    requirement of C2. *)
Lemma toLowerCase_latin1_fixes_kept : fixes_kept toLowerCase_latin1.
Proof.
  intros s. unfold toLowerCase_latin1.
  induction s as [|c t IH]; [reflexivity|].
  cbn [forallb map]. intros H. apply andb_true_iff in H as [Hc Ht].
  rewrite (IH Ht). f_equal.
  unfold lower_latin1.
  destruct (in_range (ch "A") (ch "Z") c
            || in_range 192 222 c && negb (c =? 215)) eqn:E; [|reflexivity].
  exfalso. revert Hc E. unfold kept, is_ws, one_of, in_range.
  cbn [existsb].
  change (ch "a") with 97. change (ch "z") with 122.
  change (ch "0") with 48. change (ch "9") with 57.
  change (ch "A") with 65. change (ch "Z") with 90.
  change (ch "@") with 64.
  rewrite !orb_true_iff, !andb_true_iff, !negb_true_iff, !N.leb_le,
    !N.eqb_eq, N.eqb_neq.
  lia.
Qed.

(** ** Configuration *)

Lemma trimStart_nil_iff s : trimStart s = [] <-> forallb is_ws s = true.
Proof.
  induction s as [|c t IH]; cbn [trimStart forallb]; [tauto|].
  destruct (is_ws c); cbn [andb]; [exact IH|]. split; discriminate.
Qed.

Lemma trimEnd_nil_iff s : trimEnd s = [] <-> forallb is_ws s = true.
Proof.
  induction s as [|c t IH]; cbn [trimEnd forallb]; [tauto|].
  destruct (trimEnd t) as [|d r].
  - assert (Ht : forallb is_ws t = true) by now apply IH.
    rewrite Ht, andb_true_r. destruct (is_ws c); split; trivial; discriminate.
  - split; [discriminate|]. intros H. apply andb_true_iff in H as [_ H].
    apply IH in H. discriminate.
Qed.

Lemma trimStart_all_ws s :
  forallb is_ws (trimStart s) = forallb is_ws s.
Proof.
  induction s as [|c t IH]; cbn [trimStart forallb]; [reflexivity|].
  destruct (is_ws c) eqn:E; cbn [andb]; [exact IH|].
  cbn [forallb]. now rewrite E.
Qed.

Lemma trim_nil_iff s : trim s = [] <-> forallb is_ws s = true.
Proof.
  unfold trim. rewrite trimEnd_nil_iff, trimStart_all_ws. tauto.
Qed.

Lemma split_all_ws sep s :
  forallb (forallb is_ws) (split_on sep s)
  = forallb (fun c => (c =? sep) || is_ws c) s.
Proof.
  induction s as [|c t IH]; [reflexivity|].
  cbn [split_on forallb]. destruct (c =? sep); cbn [orb].
  - cbn [forallb andb]. exact IH.
  - rewrite <- IH. destruct (split_on sep t) as [|seg segs]; cbn [forallb].
    + now rewrite !andb_true_r.
    + now rewrite andb_assoc.
Qed.

Lemma csv_nil_iff s : csv s = [] <-> forallb comma_or_ws s = true.
Proof.
  unfold csv, comma_or_ws. rewrite <- split_all_ws.
  generalize (split_on (ch ",") s) as segs.
  induction segs as [|seg segs IH]; cbn [map filter forallb]; [tauto|].
  destruct (trim seg) as [|d r] eqn:E; cbn [is_empty negb].
  - apply trim_nil_iff in E. rewrite E. exact IH.
  - split; [discriminate|]. intros H. apply andb_true_iff in H as [H _].
    apply trim_nil_iff in H. congruence.
Qed.

Lemma or_default_unset v d : v = None \/ v = Some [] -> or_default v d = d.
Proof. now intros [-> | ->]. Qed.

Lemma or_default_set s d : s <> [] -> or_default (Some s) d = s.
Proof. destruct s; [congruence | reflexivity]. Qed.

Lemma num_ge_NaN x : num_ge x NaN = false.
Proof. destruct x as [|[]|]; reflexivity. Qed.

Lemma num_eqb_ge x y : num_eqb x y = true -> num_ge x y = true.
Proof.
  destruct x as [|[]|x], y as [|[]|y]; cbn [num_eqb num_ge Bool.eqb];
    try discriminate; try reflexivity.
  intros H. apply Qeq_bool_iff in H. apply Qle_bool_iff. rewrite H.
  apply Qle_refl.
Qed.

(** C7 (amended): the default six labels are used when the labels variable
    is unset or the empty string; a non-empty value is parsed as it is, and
    gives the empty label list exactly when it has only commas and white
    space. *)
Theorem labels_default_only_when_unset (e : Env) :
  (env_TOXICITY_LABELS e = None \/ env_TOXICITY_LABELS e = Some [] ->
   LABELS e = default_labels)
  /\ (forall s, env_TOXICITY_LABELS e = Some s -> s <> [] ->
      LABELS e = csv s
      /\ (LABELS e = [] <-> forallb comma_or_ws s = true)).
Proof.
  unfold LABELS. split.
  - intros H. now rewrite or_default_unset.
  - intros s -> Hs. rewrite or_default_set by assumption.
    split; [reflexivity | apply csv_nil_iff].
Qed.

(** C6 (amended): the default threshold, the double nearest 0.85, is used
    when the threshold variable is unset or the empty string; a non-empty
    value that does not parse as a number gives the threshold NaN, which no
    score meets. *)
Theorem threshold_default_only_when_unset (e : Env) :
  (env_TOXICITY_THRESHOLD e = None \/ env_TOXICITY_THRESHOLD e = Some [] ->
   THRESH e = Number (lit "0.85")
   /\ THRESH e = Fin (7656119366529843 # 9007199254740992))
  /\ (forall s, env_TOXICITY_THRESHOLD e = Some s -> s <> [] ->
      Number s = NaN ->
      THRESH e = NaN /\ forall x, num_ge x (THRESH e) = false).
Proof.
  unfold THRESH. split.
  - intros H. rewrite or_default_unset by assumption. split; reflexivity.
  - intros s -> Hs Hn. rewrite or_default_set by assumption.
    rewrite Hn. split; [reflexivity | apply num_ge_NaN].
Qed.


(** ** The loop over the predictions *)

Lemma score_loop_acc e preds : forall acc,
  snd (fold_left (score_step e) preds acc)
  = snd acc || existsb (qualifies e) preds.
Proof.
  induction preds as [|p ps IH]; intros acc; cbn [fold_left existsb].
  - now rewrite orb_false_r.
  - rewrite IH. unfold score_step, qualifies. cbn [snd].
    destruct (array_includes _ _ && num_ge _ _), (snd acc); reflexivity.
Qed.

Lemma score_loop_hit e preds :
  snd (score_loop e preds) = existsb (qualifies e) preds.
Proof. unfold score_loop. now rewrite score_loop_acc. Qed.

Lemma array_includes_In a x : array_includes a x = true <-> In x a.
Proof.
  unfold array_includes. rewrite existsb_exists. split.
  - intros [y [Hy E]]. apply str_eqb_eq in E. now subst.
  - intros H. exists x. split; [exact H | now apply str_eqb_eq].
Qed.

Lemma qualifies_exists e preds :
  existsb (qualifies e) preds = true
  <-> exists p, In p preds /\ In (label p) (LABELS e)
             /\ num_ge (score_of p) (THRESH e) = true.
Proof.
  rewrite existsb_exists. unfold qualifies.
  split; intros [p [Hp H]]; exists p.
  - apply andb_true_iff in H as [Hl Hs]. now rewrite <- array_includes_In.
  - destruct H as [Hl Hs]. rewrite andb_true_iff, array_includes_In. auto.
Qed.

(** C5: the toxic-hit flag is the disjunction, over the predictions, of one
    test on the raw score, [score >= THRESH] for a configured label; so a
    configured label whose score equals the threshold is a hit. *)
Theorem threshold_boundary_is_a_hit (e : Env) (preds : list prediction) :
  snd (score_loop e preds)
  = existsb (fun p => array_includes (LABELS e) (label p)
                      && num_ge (score_of p) (THRESH e)) preds
  /\ (forall p, In p preds -> In (label p) (LABELS e) ->
      num_eqb (score_of p) (THRESH e) = true ->
      snd (score_loop e preds) = true).
Proof.
  split; [apply score_loop_hit|].
  intros p Hp Hl He. rewrite score_loop_hit. apply qualifies_exists.
  exists p. auto using num_eqb_ge.
Qed.

(** ** The handler *)

Lemma get_prop_body b k :
  get_prop (if truthy b then b else VObj []) k = get_prop b k.
Proof.
  destruct b as [| |[]|x|s|l|props]; try reflexivity.
  - cbn [get_prop]. now destruct (truthy (VNum x)).
  - cbn [get_prop]. now destruct (truthy (VStr s)).
Qed.

Section HandlerFacts.

Variable toLowerCase : jsstring -> jsstring.
Variable NumberToString : num -> jsstring.
Variable ObjectToString : jsval -> exn + jsstring.
Variable leo_check : list jsstring -> jsstring -> bool.
Variable toxicity_load : num -> list jsstring -> exn + model.
Variable env : Env.

Local Abbreviation handler' :=
  (handler toLowerCase NumberToString ObjectToString leo_check toxicity_load env).
Local Abbreviation try_block' :=
  (try_block toLowerCase NumberToString ObjectToString leo_check
     toxicity_load env).
Local Abbreviation self_message' :=
  (self_message toLowerCase NumberToString ObjectToString).
Local Abbreviation getModel' := (getModel toxicity_load env).

Lemma handler_post st req :
  req_method req = lit "POST" ->
  handler' st req =
    match try_block' st req with
    | (st1, calls, inr r) => (st1, calls, r)
    | (st1, calls, inl e) =>
        (st1, calls ++ [CallConsoleError e], json env 500 moderation_failed)
    end.
Proof.
  intros H. unfold handler. rewrite H. reflexivity.
Qed.

Lemma try_block_invalid st req :
  negb (truthy (field req "text")) || negb (is_string (field req "text")) = true ->
  try_block' st req = (st, [], inr (json env 400 text_required)).
Proof.
  unfold field. intros H. unfold try_block. cbv zeta.
  rewrite !get_prop_body. now rewrite H.
Qed.

Lemma try_block_valid st req text :
  get_prop (req_body req) (lit "text") = VStr text -> text <> [] ->
  try_block' st req =
    match self_message' (field req "fromUser") (field req "botName") with
    | inl e => (st, [], inl e)
    | inr true => (st, [], inr (json env 200 skipped))
    | inr false =>
        let norm := normalize toLowerCase text in
        let lexiconProfane := leo_check (CUSTOM_WORDS env) norm in
        let '(st1, loaded, m) := getModel' st in
        let calls := [CallNormalize text; CallLeoCheck norm] ++ loaded in
        match m with
        | inl e => (st1, calls, inl e)
        | inr classify =>
            match classify [norm] with
            | inl e => (st1, calls ++ [CallClassify [norm]], inl e)
            | inr preds =>
                (st1, calls ++ [CallClassify [norm]],
                 inr (json env 200
                        (verdict env
                           (lexiconProfane || existsb (qualifies env) preds)
                           text norm lexiconProfane
                           (fst (score_loop env preds)))))
            end
        end
    end.
Proof.
  intros Ht Hne. unfold try_block, field. cbv zeta.
  rewrite !get_prop_body, Ht. cbn [default_to str_of is_string negb orb].
  assert (Htr : truthy (VStr text) = true)
    by (destruct text; [congruence | reflexivity]).
  rewrite Htr. cbn [negb].
  destruct (self_message _ _ _ _ _) as [e | []]; try reflexivity.
  destruct (getModel toxicity_load env st) as [[st1 loaded] [e | classify]];
    [reflexivity|].
  destruct (classify _) as [e | preds]; [reflexivity|].
  rewrite <- score_loop_hit. now destruct (score_loop env preds).
Qed.

Lemma handler_invalid st req :
  req_method req = lit "POST" ->
  negb (truthy (field req "text")) || negb (is_string (field req "text")) = true ->
  handler' st req = (st, [], json env 400 text_required).
Proof.
  intros Hm Hi. rewrite handler_post by assumption.
  now rewrite try_block_invalid.
Qed.

Lemma self_message_strings f b :
  f <> [] -> b <> [] ->
  self_message' (VStr f) (VStr b)
  = inr (includes (toLowerCase f) (toLowerCase b)).
Proof.
  intros Hf Hb. unfold self_message.
  destruct f; [congruence|]. destruct b; [congruence|]. reflexivity.
Qed.

(** C1: for a POST request that passes validation and the self-message
    filter, and whose classifier call returns, the response is a 200 whose
    [foul] is true exactly when the lexicon check on the normalized text is
    true or some prediction with a configured label has a score at or above
    the threshold. *)
Theorem foul_iff_lexicon_or_toxic_hit st req text classify preds :
  req_method req = lit "POST" ->
  get_prop (req_body req) (lit "text") = VStr text -> text <> [] ->
  self_message' (field req "fromUser") (field req "botName") = inr false ->
  snd (getModel' st) = inr classify ->
  classify [normalize toLowerCase text] = inr preds ->
  let norm := normalize toLowerCase text in
  let r := response_of (handler' st req) in
  status r = 200
  /\ res_prop r "norm" = VStr norm
  /\ exists foul,
       res_prop r "foul" = VBool foul
       /\ (foul = true <->
           leo_check (CUSTOM_WORDS env) norm = true
           \/ exists p, In p preds /\ In (label p) (LABELS env)
                     /\ num_ge (score_of p) (THRESH env) = true).
Proof.
  intros Hm Ht Hne Hs Hg Hc norm r. subst r norm.
  rewrite handler_post by assumption.
  rewrite (try_block_valid st req text Ht Hne), Hs. cbv zeta.
  destruct (getModel toxicity_load env st) as [[st1 loaded] m].
  cbn [snd] in Hg. subst m. rewrite Hc.
  unfold response_of. cbn [snd].
  split; [reflexivity|]. split; [reflexivity|].
  exists (leo_check (CUSTOM_WORDS env) (normalize toLowerCase text)
          || existsb (qualifies env) preds).
  split; [reflexivity|].
  now rewrite orb_true_iff, qualifies_exists.
Qed.

(** C3 (amended): for a POST request whose [text] is a non-empty string, if
    [fromUser] and [botName] are non-empty strings and the lower-case
    [fromUser] contains the lower-case [botName], the handler makes no call
    and answers 200 with exactly [{foul: false, skipped: true, reason:
    "self_message"}]. *)
Theorem self_message_skipped_once_text_is_valid st req text f b :
  req_method req = lit "POST" ->
  get_prop (req_body req) (lit "text") = VStr text -> text <> [] ->
  get_prop (req_body req) (lit "fromUser") = VStr f -> f <> [] ->
  get_prop (req_body req) (lit "botName") = VStr b -> b <> [] ->
  includes (toLowerCase f) (toLowerCase b) = true ->
  handler' st req = (st, [], json env 200 skipped).
Proof.
  intros Hm Ht Hne Hf Hfe Hb Hbe Hi.
  rewrite handler_post by assumption.
  rewrite (try_block_valid st req text Ht Hne).
  unfold field. rewrite Hf, Hb. cbn [default_to].
  now rewrite self_message_strings, Hi.
Qed.

(** C4: a POST request whose body has no [text], or a [text] that is not a
    string, or the empty string, gets 400 [{error: "text_required"}]; the
    handler makes no call (no normalization, no detection). *)
Theorem text_required_on_invalid_text st req :
  req_method req = lit "POST" ->
  get_prop (req_body req) (lit "text") = VUndefined
  \/ is_string (get_prop (req_body req) (lit "text")) = false
  \/ get_prop (req_body req) (lit "text") = VStr [] ->
  handler' st req = (st, [], json env 400 text_required).
Proof.
  intros Hm H. apply handler_invalid; [assumption|]. unfold field.
  destruct H as [-> | [H | ->]]; try reflexivity.
  destruct (get_prop (req_body req) (lit "text")); try reflexivity;
    cbn [default_to is_string negb]; try apply orb_true_r.
  discriminate.
Qed.

(** C9: when the classifier fails to load or to classify, or the pipeline
    throws earlier, the response is 500 with exactly
    [{error: "moderation_failed"}], whatever the error; the error goes to
    the log only; there is no [foul] in the response although the lexicon
    check has run by the time the classifier fails. *)
Theorem failure_is_moderation_failed st req text e :
  req_method req = lit "POST" ->
  get_prop (req_body req) (lit "text") = VStr text -> text <> [] ->
  let norm := normalize toLowerCase text in
  let filtered := self_message' (field req "fromUser") (field req "botName") in
  filtered = inl e
  \/ filtered = inr false
     /\ (snd (getModel' st) = inl e
         \/ exists classify,
              snd (getModel' st) = inr classify /\ classify [norm] = inl e) ->
  response_of (handler' st req) = json env 500 moderation_failed
  /\ res_prop (response_of (handler' st req)) "foul" = VUndefined
  /\ In (CallConsoleError e) (calls_of (handler' st req))
  /\ (filtered = inr false ->
      In (CallLeoCheck norm) (calls_of (handler' st req))).
Proof.
  intros Hm Ht Hne norm filtered H.
  rewrite handler_post by assumption.
  rewrite (try_block_valid st req text Ht Hne). fold filtered. fold norm.
  unfold response_of, calls_of.
  destruct H as [-> | [-> H]].
  - cbn. repeat split; auto. discriminate.
  - cbv zeta.
    destruct (getModel toxicity_load env st) as [[st1 loaded] m].
    cbn [snd] in H. destruct H as [-> | [classify [-> ->]]]; cbn [snd fst].
    + repeat split; try reflexivity.
      * apply in_or_app. right. now left.
      * intros _. apply in_or_app. left. right. now left.
    + repeat split; try reflexivity.
      * apply in_or_app. right. now left.
      * intros _. apply in_or_app. left. apply in_or_app. left. right. now left.
Qed.

(** C10: a POST request with no body at all (null or undefined) is handled
    as one with an empty object: 400 [{error: "text_required"}], no error
    logged, not a 500. *)
Theorem absent_body_is_text_required st req :
  req_method req = lit "POST" ->
  req_body req = VNull \/ req_body req = VUndefined ->
  handler' st req = (st, [], json env 400 text_required)
  /\ status (response_of (handler' st req)) = 400.
Proof.
  intros Hm H.
  assert (E : handler' st req = (st, [], json env 400 text_required)).
  { apply handler_invalid; [assumption|]. unfold field.
    destruct H as [-> | ->]; reflexivity. }
  rewrite E. split; reflexivity.
Qed.

End HandlerFacts.

(** * Instances *)

(** ** The normalizer *)

Example normalize_hello :
  normalize toLowerCase_latin1 (lit "h3ll0 w0rld") = lit "hello world".
Proof. reflexivity. Qed.

Example normalize_idiot :
  normalize toLowerCase_latin1 (lit "You are such an idiot!!!")
  = lit "you are such an idiotiii".
Proof. reflexivity. Qed.

Example normalize_mention :
  normalize toLowerCase_latin1 (lit "  Hi @Bob,   $5 4 U!  ")
  = lit "hi abob ss a ui".
Proof. reflexivity. Qed.

(** A lone tab is white space the collapse step leaves alone. *)
Example normalize_lone_tab :
  normalize toLowerCase_latin1 [ch "a"; 9; ch "b"] = [ch "a"; 9; ch "b"].
Proof. reflexivity. Qed.

Lemma normalize_idempotent_witness :
  normalize toLowerCase_latin1
    (normalize toLowerCase_latin1 (lit "  H3LL0,   W0rld!  "))
  = normalize toLowerCase_latin1 (lit "  H3LL0,   W0rld!  ")
  /\ normalize toLowerCase_latin1 [] = [].
Proof.
  split.
  - apply (proj1 (normalize_idempotent toLowerCase_latin1
                    toLowerCase_latin1_fixes_kept)).
  - apply (proj2 (normalize_idempotent toLowerCase_latin1
                    toLowerCase_latin1_fixes_kept)).
Defined.

(** ** Configuration *)

(** C7, as stated, fails: the labels variable [" , "] is set, its entries
    all trim to nothing, and the label list is empty, not the six defaults. *)
Lemma labels_blank_override_is_empty :
  env_TOXICITY_LABELS (env_with_labels (lit " , ")) = Some (lit " , ")
  /\ csv (lit " , ") = []
  /\ LABELS (env_with_labels (lit " , ")) = []
  /\ List.length default_labels = 6%nat.
Proof. repeat split. Qed.

Lemma labels_default_only_when_unset_witness :
  LABELS no_env = default_labels
  /\ LABELS (env_with_labels (lit ",")) = [].
Proof.
  split.
  - apply (proj1 (labels_default_only_when_unset no_env)). now left.
  - apply (proj2 (proj2 (labels_default_only_when_unset
                           (env_with_labels (lit ",")))
                   (lit ",") eq_refl ltac:(discriminate))).
    reflexivity.
Defined.

(** C6, as stated, fails: the threshold variable ["abc"] is set and is not
    a number, and the threshold is NaN, not the default. *)
Lemma threshold_non_numeric_is_NaN :
  env_TOXICITY_THRESHOLD (env_with_threshold (lit "abc")) = Some (lit "abc")
  /\ Number (lit "abc") = NaN
  /\ THRESH (env_with_threshold (lit "abc")) = NaN
  /\ num_eqb (THRESH (env_with_threshold (lit "abc"))) (Number (lit "0.85"))
     = false.
Proof. repeat split. Qed.

Lemma threshold_default_only_when_unset_witness :
  THRESH no_env = Number (lit "0.85")
  /\ THRESH (env_with_threshold (lit "high")) = NaN.
Proof.
  split.
  - apply (proj1 (threshold_default_only_when_unset no_env)). now left.
  - apply (proj2 (threshold_default_only_when_unset
                    (env_with_threshold (lit "high")))
             (lit "high") eq_refl ltac:(discriminate) eq_refl).
Defined.

(** ** The loop over the predictions *)

Lemma threshold_boundary_is_a_hit_witness :
  num_eqb (score_of (demo_prediction (lit "insult") (THRESH no_env)))
    (THRESH no_env) = true
  /\ snd (score_loop no_env [demo_prediction (lit "insult") (THRESH no_env)])
     = true.
Proof.
  split; [reflexivity|].
  apply (proj2 (threshold_boundary_is_a_hit no_env
                  [demo_prediction (lit "insult") (THRESH no_env)])
           (demo_prediction (lit "insult") (THRESH no_env))).
  - now left.
  - vm_compute. tauto.
  - reflexivity.
Defined.

(** The score reported in the response is rounded, the score compared is
    not: 0.84996 is reported as 0.85, the threshold, and is not a hit. *)
Example rounded_score_is_not_compared :
  let score := to_double (84996 # 100000) in
  toFixed4 score = THRESH no_env
  /\ num_ge (toFixed4 score) (THRESH no_env) = true
  /\ score_loop no_env [demo_prediction (lit "insult") score]
     = ([(lit "insult", VNum (THRESH no_env))], false).
Proof. vm_compute. repeat split. Qed.

(** ** The handler *)

Lemma foul_iff_lexicon_or_toxic_hit_witness :
  demo_leo (CUSTOM_WORDS no_env)
    (normalize toLowerCase_latin1 (lit "You are such an idiot!!!")) = true
  /\ res_prop
       (response_of (demo_handler (demo_load (Fin (1 # 100))) cold idiot_request))
       "foul" = VBool true.
Proof.
  split; [reflexivity|].
  destruct (foul_iff_lexicon_or_toxic_hit
              toLowerCase_latin1 demo_number_string demo_object_string
              demo_leo (demo_load (Fin (1 # 100))) no_env cold idiot_request
              (lit "You are such an idiot!!!")
              (demo_classify (Fin (1 # 100)))
              [demo_prediction (lit "insult") (Fin (1 # 100))]
              eq_refl eq_refl ltac:(discriminate) eq_refl eq_refl eq_refl)
    as [_ [_ [foul [Hfoul Hiff]]]].
  unfold demo_handler. rewrite Hfoul. f_equal. apply Hiff. left. reflexivity.
Defined.

(** C3, as stated, fails: with an empty [text] the request is refused with
    400 before the self-message filter is reached. *)
Lemma self_message_comes_after_validation :
  field (own_request []) "fromUser" = VStr (lit "ModBot-7")
  /\ field (own_request []) "botName" = VStr (lit "modbot")
  /\ includes (toLowerCase_latin1 (lit "ModBot-7"))
       (toLowerCase_latin1 (lit "modbot")) = true
  /\ demo_handler failing_load cold (own_request [])
     = (cold, [], json no_env 400 text_required)
  /\ status (response_of (demo_handler failing_load cold (own_request [])))
     = 400.
Proof. repeat split. Qed.

Lemma self_message_skipped_once_text_is_valid_witness :
  demo_handler failing_load cold (own_request (lit "You are such an idiot!!!"))
  = (cold, [], json no_env 200 skipped).
Proof.
  apply (self_message_skipped_once_text_is_valid
           toLowerCase_latin1 demo_number_string demo_object_string demo_leo
           failing_load no_env cold
           (own_request (lit "You are such an idiot!!!"))
           (lit "You are such an idiot!!!") (lit "ModBot-7") (lit "modbot"));
    try reflexivity; discriminate.
Defined.

Lemma text_required_on_invalid_text_witness :
  demo_handler failing_load cold
    (post (VObj [(lit "text", VNum (Fin 42))]))
  = (cold, [], json no_env 400 text_required).
Proof.
  apply (text_required_on_invalid_text
           toLowerCase_latin1 demo_number_string demo_object_string demo_leo
           failing_load no_env cold
           (post (VObj [(lit "text", VNum (Fin 42))]))).
  - reflexivity.
  - right. left. reflexivity.
Defined.

Lemma failure_is_moderation_failed_witness :
  response_of (demo_handler failing_load cold idiot_request)
  = json no_env 500 moderation_failed
  /\ In (CallLeoCheck (lit "you are such an idiotiii"))
       (calls_of (demo_handler failing_load cold idiot_request)).
Proof.
  destruct (failure_is_moderation_failed
              toLowerCase_latin1 demo_number_string demo_object_string
              demo_leo failing_load no_env cold idiot_request
              (lit "You are such an idiot!!!") (lit "fetch failed")
              eq_refl eq_refl ltac:(discriminate)
              (or_intror (conj eq_refl (or_introl eq_refl))))
    as [Hres [_ [_ Hleo]]].
  split; [exact Hres | exact (Hleo eq_refl)].
Defined.

Lemma absent_body_is_text_required_witness :
  demo_handler failing_load cold (post VUndefined)
  = (cold, [], json no_env 400 text_required)
  /\ demo_handler failing_load cold (post VNull)
     = (cold, [], json no_env 400 text_required).
Proof.
  split.
  - apply (absent_body_is_text_required
             toLowerCase_latin1 demo_number_string demo_object_string demo_leo
             failing_load no_env cold (post VUndefined) eq_refl).
    now right.
  - apply (absent_body_is_text_required
             toLowerCase_latin1 demo_number_string demo_object_string demo_leo
             failing_load no_env cold (post VNull) eq_refl).
    now left.
Defined.

(** An OPTIONS request: 204, no body, the CORS headers. *)
Example options_request :
  demo_handler failing_load cold
    {| req_method := lit "OPTIONS"; req_body := VUndefined |}
  = (cold, [],
     {| status := 204;
        headers :=
          [(lit "Access-Control-Allow-Origin", lit "*");
           (lit "Access-Control-Allow-Methods", lit "POST,OPTIONS");
           (lit "Access-Control-Allow-Headers",
            lit "Content-Type, Authorization")];
        res_body := None |}).
Proof. reflexivity. Qed.

(** A clean text with a low score: not foul, the score reported rounded. *)
Example clean_request :
  let r := response_of
             (demo_handler (demo_load (to_double (1 # 100))) cold
                (post (VObj [(lit "text", VStr (lit "hello"))]))) in
  status r = 200
  /\ res_prop r "foul" = VBool false
  /\ res_prop r "norm" = VStr (lit "hello")
  /\ get_prop (res_prop r "reasons") (lit "toxicityScores")
     = VObj [(lit "insult", VNum (Number (lit "0.0100")))].
Proof. vm_compute. repeat split. Qed.

(** A score at the threshold alone makes the message foul. *)
Example classifier_only_request :
  res_prop
    (response_of
       (demo_handler (demo_load (THRESH no_env)) cold
          (post (VObj [(lit "text", VStr (lit "hello"))]))))
    "foul" = VBool true.
Proof. reflexivity. Qed.

(** * Further properties *)

(** ** White space *)

Lemma trimStart_prefix s :
  exists pre, s = pre ++ trimStart s /\ forallb is_ws pre = true.
Proof.
  induction s as [|c t [pre [E H]]]; [now exists []|].
  cbn [trimStart]. destruct (is_ws c) eqn:Ec.
  - exists (c :: pre). cbn [app forallb]. now rewrite Ec, <- E.
  - now exists [].
Qed.

Lemma trimEnd_suffix s :
  exists post, s = trimEnd s ++ post /\ forallb is_ws post = true.
Proof.
  induction s as [|c t [post [E H]]]; [now exists []|].
  cbn [trimEnd]. destruct (trimEnd t) as [|d r].
  - cbn [app] in E. subst post. destruct (is_ws c) eqn:Ec.
    + exists (c :: t). cbn [app forallb]. now rewrite Ec.
    + now exists t.
  - exists post. cbn [app] in E |- *. now rewrite <- E.
Qed.

Lemma trimEnd_last s : last_ws (trimEnd s) = false.
Proof.
  induction s as [|c t IH]; [reflexivity|].
  cbn [trimEnd]. destruct (trimEnd t) as [|d r].
  - destruct (is_ws c) eqn:Ec; [reflexivity | exact Ec].
  - exact IH.
Qed.

Lemma trim_head s : head_ws (trim s) = false.
Proof.
  unfold trim. destruct (head_ws (trimEnd (trimStart s))) eqn:E; [|reflexivity].
  apply trimEnd_head in E. now rewrite trimStart_head in E.
Qed.

Lemma trimEnd_fixed s : last_ws s = false -> trimEnd s = s.
Proof.
  induction s as [|c t IH]; [reflexivity|].
  destruct t as [|d t'].
  - cbn. now intros ->.
  - intros H. change (last_ws (d :: t') = false) in H.
    cbn [trimEnd] in *. rewrite (IH H). reflexivity.
Qed.

Lemma trimStart_app_ws pre s :
  forallb is_ws pre = true -> trimStart (pre ++ s) = trimStart s.
Proof.
  induction pre as [|c pre IH]; [reflexivity|].
  cbn [forallb app trimStart]. intros H.
  apply andb_true_iff in H as [-> H]. now apply IH.
Qed.

Lemma trimEnd_app_ws s post :
  forallb is_ws post = true -> trimEnd (s ++ post) = trimEnd s.
Proof.
  intros H. induction s as [|c t IH].
  - now apply trimEnd_nil_iff.
  - cbn [app trimEnd]. now rewrite IH.
Qed.

Lemma trim_app_ws s post :
  forallb is_ws post = true -> trim (s ++ post) = trim s.
Proof.
  intros H. unfold trim. induction s as [|c t IH].
  - cbn [app]. assert (E : trimStart post = []) by now apply trimStart_nil_iff.
    now rewrite E.
  - cbn [app trimStart]. destruct (is_ws c); [exact IH|].
    now apply (trimEnd_app_ws (c :: t)).
Qed.

Lemma trim_is_the_middle_parts s :
  exists pre post, s = pre ++ trim s ++ post.
Proof.
  destruct (trimStart_prefix s) as [pre [E1 _]].
  destruct (trimEnd_suffix (trimStart s)) as [post [E2 _]].
  exists pre, post. unfold trim. now rewrite <- E2.
Qed.

(** X1: [trim] returns the middle of the string: what it drops in front and
    behind is white space only, and what it returns neither starts nor ends
    with white space. *)
Theorem trim_is_the_middle s :
  (exists pre post,
     s = pre ++ trim s ++ post
     /\ forallb is_ws pre = true /\ forallb is_ws post = true)
  /\ head_ws (trim s) = false /\ last_ws (trim s) = false.
Proof.
  split; [|split; [apply trim_head | apply trimEnd_last]].
  destruct (trimStart_prefix s) as [pre [E1 H1]].
  destruct (trimEnd_suffix (trimStart s)) as [post [E2 H2]].
  exists pre, post. unfold trim. now rewrite <- E2.
Qed.

Lemma trim_outer_ws pre s post :
  forallb is_ws pre = true -> forallb is_ws post = true ->
  trim (pre ++ s ++ post) = trim s.
Proof.
  intros Hpre Hpost. rewrite <- (trim_app_ws s post Hpost). unfold trim.
  now rewrite trimStart_app_ws.
Qed.

(** X2: white space around a string does not change what [trim] returns, and
    a string that neither starts nor ends with white space is returned as it
    is. *)
Theorem trim_ignores_outer_white_space pre s post :
  forallb is_ws pre = true -> forallb is_ws post = true ->
  trim (pre ++ s ++ post) = trim s
  /\ (head_ws s = false -> last_ws s = false -> trim (pre ++ s ++ post) = s).
Proof.
  intros Hpre Hpost.
  pose proof (trim_outer_ws pre s post Hpre Hpost) as E.
  split; [exact E|]. intros Hh Hl. rewrite E. unfold trim.
  rewrite trimStart_fixed by assumption. now apply trimEnd_fixed.
Qed.

Lemma trim_ignores_outer_white_space_witness :
  trim (lit "  " ++ lit "severe toxicity" ++ [9; 10]) = lit "severe toxicity".
Proof.
  apply (proj2 (trim_ignores_outer_white_space
                  (lit "  ") (lit "severe toxicity") [9; 10] eq_refl eq_refl));
    reflexivity.
Defined.

(** ** The normalizer, further *)

Lemma settled_out_char c : settled c = out_char c.
Proof.
  by_substituted c Hout.
  unfold settled, norm_char. rewrite (leet_char_other c Hout). cbv zeta.
  assert (Hk : kept c = out_char c).
  { unfold kept, out_char.
    destruct (in_range (ch "a") (ch "z") c); [reflexivity|].
    destruct (is_ws c); cbn [orb]; [now rewrite !orb_true_r|].
    rewrite !orb_false_r. vm_compute in Hout.
    unfold in_range, one_of. cbn [existsb].
    change (ch "0") with 48. change (ch "9") with 57. change (ch "@") with 64.
    change (ch "2") with 50. change (ch "6") with 54. change (ch "8") with 56.
    destruct (N.leb_spec 48 c), (N.leb_spec c 57), (N.eqb_spec c 64),
      (N.eqb_spec c 50), (N.eqb_spec c 54), (N.eqb_spec c 56),
      (N.eqb_spec c 57); cbn [andb orb]; try reflexivity; exfalso; lia. }
  rewrite <- Hk. destruct (kept c); cbn [negb andb]; [apply N.eqb_refl | reflexivity].
Qed.

Lemma non_ws_collapse s : forall b, non_ws (collapse_runs b s) = non_ws s.
Proof.
  unfold non_ws. induction s as [|c t IH]; intros b; [reflexivity|].
  cbn [collapse_runs filter]. destruct (is_ws c) eqn:Ec; cbn [negb].
  - destruct b; [apply IH|]. destruct t as [|d t'].
    + cbn [filter]. now rewrite Ec.
    + destruct (is_ws d).
      * cbn [filter]. change (is_ws SP) with true. cbn [negb]. apply IH.
      * cbn [filter]. rewrite Ec. cbn [negb]. apply IH.
  - cbn [filter]. rewrite Ec. cbn [negb]. now rewrite IH.
Qed.

Lemma non_ws_trim s : non_ws (trim s) = non_ws s.
Proof.
  assert (Hws : forall l, forallb is_ws l = true -> non_ws l = []).
  { unfold non_ws. induction l as [|c l IH]; [reflexivity|].
    cbn [forallb filter]. intros H. apply andb_true_iff in H as [-> H].
    now apply IH. }
  destruct (trimStart_prefix s) as [pre [E1 H1]].
  destruct (trimEnd_suffix (trimStart s)) as [post [E2 H2]].
  fold (trim s) in E2.
  transitivity (non_ws (pre ++ trim s ++ post)).
  - unfold non_ws in *. rewrite !filter_app, (Hws pre H1), (Hws post H2).
    cbn [app]. now rewrite app_nil_r.
  - now rewrite <- E2, <- E1.
Qed.

Lemma collapse_length s : forall b,
  (List.length (collapse_runs b s) <= List.length s)%nat.
Proof.
  induction s as [|c t IH]; intros b; [reflexivity|].
  cbn [collapse_runs]. destruct (is_ws c).
  - destruct b; [cbn [List.length]; specialize (IH true); lia|].
    destruct t as [|d t']; [reflexivity|].
    destruct (is_ws d); cbn [List.length].
    + specialize (IH true). cbn [List.length] in IH. lia.
    + specialize (IH false). cbn [List.length] in IH. lia.
  - cbn [List.length]. specialize (IH false). lia.
Qed.

Lemma trim_length s : (List.length (trim s) <= List.length s)%nat.
Proof.
  destruct (trim_is_the_middle_parts s) as [pre [post E]].
  rewrite E at 2. rewrite !length_app. lia.
Qed.

Lemma leet_char_clean d :
  ~ In (leet_char d)
      [ch "!"; 161; ch "1"; ch "|"; ch "@"; ch "4"; ch "$"; ch "5"; ch "0";
       ch "3"; ch "7"].
Proof.
  destruct (in_dec N.eq_dec d substituted) as [Hin | Hout].
  - repeat (destruct Hin as [<- | Hin]; [vm_compute; lia | ]). destruct Hin.
  - rewrite leet_char_other by assumption.
    intros H. apply Hout. vm_compute in H |- *. tauto.
Qed.

(** X3: the substitution steps leave none of the code units they replace
    but [i] itself (no [!], inverted [!], [1], [|], [@], [4], [$], [5],
    [0], [3], [7]), and running them twice changes nothing more. *)
Theorem leet_leaves_no_leetspeak s :
  leet (leet s) = leet s
  /\ forall c, In c (leet s) ->
       ~ In c [ch "!"; 161; ch "1"; ch "|"; ch "@"; ch "4"; ch "$"; ch "5";
               ch "0"; ch "3"; ch "7"].
Proof.
  split.
  - rewrite !leet_map, map_map. apply map_ext. intros c. apply leet_char_idem.
  - intros c H. rewrite leet_map in H. apply in_map_iff in H as [d [<- _]].
    apply leet_char_clean.
Qed.

Lemma forallb_settled_out s : forallb settled s = forallb out_char s.
Proof.
  induction s as [|c t IH]; [reflexivity|].
  cbn [forallb]. now rewrite settled_out_char, IH.
Qed.

Lemma normalize_out lower x :
  forallb out_char (normalize lower x) = true
  /\ head_ws (normalize lower x) = false
  /\ last_ws (normalize lower x) = false
  /\ no_run (normalize lower x) = true.
Proof.
  split; [|split; [|split]].
  - rewrite <- forallb_settled_out. apply normalize_settled.
  - unfold normalize. apply trim_head.
  - unfold normalize. apply trimEnd_last.
  - apply normalize_no_run.
Qed.

(** X4: a normalized string has only lower-case letters, the digits 2, 6, 8
    and 9, and white space; it neither starts nor ends with white space and
    has no two white-space code units in a row. *)
Theorem normalize_output_shape lower x :
  forallb out_char (normalize lower x) = true
  /\ head_ws (normalize lower x) = false
  /\ last_ws (normalize lower x) = false
  /\ no_run (normalize lower x) = true.
Proof. apply normalize_out. Qed.

(** X5: after the substitutions and the filter, [normalize] only drops or
    merges white space: the other code units are kept, in order; and the
    result is never longer than the lower-cased text. *)
Theorem normalize_only_reshapes_white_space lower x :
  non_ws (normalize lower x)
  = non_ws (replace_class (fun c => negb (kept c)) SP (leet (lower x)))
  /\ (List.length (normalize lower x) <= List.length (lower x))%nat.
Proof.
  unfold normalize. split.
  - now rewrite non_ws_trim, non_ws_collapse.
  - eapply Nat.le_trans; [apply trim_length|].
    eapply Nat.le_trans; [apply collapse_length|].
    unfold leet, replace_class. now rewrite !length_map.
Qed.

(** X6: the strings [normalize] returns unchanged are exactly those of the
    shape of X4, for a [toLowerCase] that leaves such strings as they are. *)
Theorem normalize_fixed_points lower x :
  fixes_kept lower ->
  normalize lower x = x
  <-> forallb out_char x = true /\ head_ws x = false
      /\ last_ws x = false /\ no_run x = true.
Proof.
  intros Hl. split.
  - intros E. rewrite <- E.
    destruct (normalize_out lower x) as [H1 [H2 [H3 H4]]]. auto.
  - intros [Ho [Hh [Hlast Hr]]].
    rewrite <- forallb_settled_out in Ho.
    assert (Hk : forallb kept x = true /\ forallb (fun c => norm_char c =? c) x = true).
    { rewrite !forallb_forall in *.
      split; intros c Hc; specialize (Ho c Hc); unfold settled in Ho;
        now apply andb_true_iff in Ho. }
    destruct Hk as [Hk Hf].
    rewrite normalize_shape, (Hl _ Hk), (map_fixed _ _ Hf), (collapse_fixed _ Hr).
    unfold trim. rewrite trimStart_fixed by assumption. now apply trimEnd_fixed.
Qed.

Lemma normalize_fixed_points_witness :
  normalize toLowerCase_latin1 (lit "hello world 2") = lit "hello world 2".
Proof.
  apply (proj2 (normalize_fixed_points toLowerCase_latin1 (lit "hello world 2")
                  toLowerCase_latin1_fixes_kept)).
  repeat split.
Defined.

(** ** Configuration, further *)

Lemma split_on_not_nil sep s : split_on sep s <> [].
Proof.
  destruct s as [|c t]; cbn [split_on]; [discriminate|].
  destruct (c =? sep); [discriminate|].
  destruct (split_on sep t); discriminate.
Qed.

Lemma split_on_no_sep sep s :
  forall seg, In seg (split_on sep s) -> ~ In sep seg.
Proof.
  induction s as [|c t IH]; cbn [split_on]; intros seg H.
  - destruct H as [<- | []]. intros [].
  - destruct (N.eqb_spec c sep) as [-> | Hc].
    + destruct H as [<- | H]; [intros [] | now apply IH].
    + destruct (split_on sep t) as [|s0 segs].
      * destruct H as [<- | []]. intros [E | []]. congruence.
      * destruct H as [<- | H].
        -- intros [E | Hin]; [congruence|]. apply (IH s0); [now left | exact Hin].
        -- apply IH. now right.
Qed.

Lemma join_split_on sep s : join sep (split_on sep s) = s.
Proof.
  induction s as [|c t IH]; [reflexivity|].
  cbn [split_on]. destruct (N.eqb_spec c sep) as [-> | Hc].
  - pose proof (split_on_not_nil sep t) as Hn.
    destruct (split_on sep t) as [|s0 segs]; [congruence|].
    cbn [join app] in *. now rewrite IH.
  - destruct (split_on sep t) as [|s0 segs].
    + cbn [join] in *. now rewrite <- IH.
    + cbn [join app] in *. now rewrite IH.
Qed.

Lemma split_on_one sep a : ~ In sep a -> split_on sep a = [a].
Proof.
  induction a as [|c t IH]; [reflexivity|].
  intros H. cbn [split_on]. destruct (N.eqb_spec c sep) as [-> | Hc].
  - exfalso. apply H. now left.
  - rewrite IH; [reflexivity|]. intros Hin. apply H. now right.
Qed.

Lemma split_on_app sep a r :
  ~ In sep a -> split_on sep (a ++ sep :: r) = a :: split_on sep r.
Proof.
  induction a as [|c t IH]; intros H.
  - cbn [app split_on]. now rewrite N.eqb_refl.
  - cbn [app split_on]. destruct (N.eqb_spec c sep) as [-> | Hc].
    + exfalso. apply H. now left.
    + rewrite IH; [reflexivity|]. intros Hin. apply H. now right.
Qed.

Lemma split_on_join sep l :
  l <> [] -> Forall (fun e => ~ In sep e) l -> split_on sep (join sep l) = l.
Proof.
  induction l as [|e r IH]; [congruence|].
  intros _ H. inversion H as [|? ? He Hr]; subst.
  destruct r as [|e' r'].
  - cbn [join]. rewrite app_nil_r. now apply split_on_one.
  - change (join sep (e :: e' :: r')) with (e ++ sep :: join sep (e' :: r')).
    rewrite split_on_app by assumption. f_equal. apply IH; [discriminate | exact Hr].
Qed.

(** X7: [split] and [join] on the same separator undo each other: joining
    the pieces of a string gives the string back; the pieces are never none,
    and none of them holds the separator. *)
Theorem split_then_join sep s :
  join sep (split_on sep s) = s
  /\ split_on sep s <> []
  /\ Forall (fun seg => ~ In sep seg) (split_on sep s).
Proof.
  split; [apply join_split_on|]. split; [apply split_on_not_nil|].
  apply Forall_forall. apply split_on_no_sep.
Qed.

Lemma trim_subset s c : In c (trim s) -> In c s.
Proof.
  intros H. destruct (trim_is_the_middle_parts s) as [pre [post E]].
  rewrite E. apply in_or_app. right. apply in_or_app. now left.
Qed.

Lemma csv_clean s : Forall clean_entry (csv s).
Proof.
  apply Forall_forall. intros e H. unfold csv in H.
  apply filter_In in H as [H Hne]. apply in_map_iff in H as [seg [<- Hseg]].
  unfold clean_entry. split; [|split; [|split]].
  - destruct (trim seg); [discriminate | discriminate].
  - intros Hin. apply trim_subset in Hin.
    now apply (split_on_no_sep _ _ _ Hseg).
  - apply trim_head.
  - apply trimEnd_last.
Qed.

(** X8: the configured labels and custom words are clean whatever the
    environment holds: no entry is empty, holds a comma, or starts or ends
    with white space. *)
Theorem configured_lists_are_clean (e : Env) :
  Forall clean_entry (LABELS e) /\ Forall clean_entry (CUSTOM_WORDS e).
Proof. split; apply csv_clean. Qed.

Lemma clean_entry_trim e : clean_entry e -> trim e = e.
Proof.
  intros [_ [_ [Hh Hl]]]. unfold trim.
  rewrite trimStart_fixed by assumption. now apply trimEnd_fixed.
Qed.

Lemma csv_join l : Forall clean_entry l -> csv (join (ch ",") l) = l.
Proof.
  intros H. destruct l as [|e r]; [reflexivity|].
  unfold csv. rewrite split_on_join.
  - induction H as [|x xs Hx Hxs IH]; [reflexivity|].
    cbn [map filter]. rewrite (clean_entry_trim x Hx).
    destruct Hx as [Hne _]. destruct x; [congruence|].
    cbn [is_empty negb]. now rewrite IH.
  - discriminate.
  - eapply Forall_impl; [|exact H]. intros a Ha. apply Ha.
Qed.

(** X9: a list of clean entries written with commas between them is read
    back as it is; so a non-empty list of clean labels put in the labels
    variable is the configured label list. *)
Theorem csv_reads_back_a_joined_list (l : list jsstring) :
  Forall clean_entry l ->
  csv (join (ch ",") l) = l
  /\ (l <> [] -> forall e,
      env_TOXICITY_LABELS e = Some (join (ch ",") l) -> LABELS e = l).
Proof.
  intros H. split; [now apply csv_join|].
  intros Hne e He. unfold LABELS. rewrite He, or_default_set.
  - now apply csv_join.
  - destruct l as [|x r]; [congruence|].
    inversion H as [|? ? [Hx _] _]; subst.
    destruct x; [congruence|]. cbn [join app]. discriminate.
Qed.

Lemma csv_reads_back_a_joined_list_witness :
  LABELS (env_with_labels (lit "insult,severe toxicity"))
  = [lit "insult"; lit "severe toxicity"].
Proof.
  apply (proj2 (csv_reads_back_a_joined_list
                  [lit "insult"; lit "severe toxicity"]
                  ltac:(repeat constructor; try discriminate; vm_compute; lia))
           ltac:(discriminate) (env_with_labels (lit "insult,severe toxicity"))
           eq_refl).
Defined.

(** X10: white space around the value of the threshold variable does not
    change the threshold: it is the number of the value without it. *)
Theorem threshold_ignores_outer_white_space (e : Env) pre s post :
  env_TOXICITY_THRESHOLD e = Some (pre ++ s ++ post) -> s <> [] ->
  forallb is_ws pre = true -> forallb is_ws post = true ->
  THRESH e = Number s.
Proof.
  intros He Hne Hpre Hpost. unfold THRESH. rewrite He, or_default_set.
  - unfold Number. now rewrite (trim_outer_ws pre s post Hpre Hpost).
  - destruct s; [congruence|]. now destruct pre.
Qed.

Lemma threshold_ignores_outer_white_space_witness :
  THRESH (env_with_threshold ([9] ++ lit "0.9" ++ lit "  ")) = Number (lit "0.9").
Proof.
  apply (threshold_ignores_outer_white_space
           (env_with_threshold ([9] ++ lit "0.9" ++ lit "  "))
           [9] (lit "0.9") (lit "  ") eq_refl ltac:(discriminate)
           eq_refl eq_refl).
Defined.

(** X11: a threshold variable that holds only white space is read as 0, not
    as the default: every score that is not negative then meets the
    threshold. *)
Theorem blank_threshold_is_zero (e : Env) (s : jsstring) :
  env_TOXICITY_THRESHOLD e = Some s -> s <> [] -> forallb is_ws s = true ->
  THRESH e = Fin 0
  /\ forall q, (0 <= q)%Q -> num_ge (Fin q) (THRESH e) = true.
Proof.
  intros He Hne Hws.
  assert (E : THRESH e = Fin 0).
  { unfold THRESH, Number. rewrite He, or_default_set by assumption.
    apply trim_nil_iff in Hws. now rewrite Hws. }
  split; [exact E|]. intros q Hq. rewrite E. cbn [num_ge].
  now apply Qle_bool_iff.
Qed.

Lemma blank_threshold_is_zero_witness :
  THRESH (env_with_threshold (lit " ")) = Fin 0.
Proof.
  apply (proj1 (blank_threshold_is_zero (env_with_threshold (lit " ")) (lit " ")
                  eq_refl ltac:(discriminate) eq_refl)).
Defined.

(** ** The score map *)







(** ** The handler, further *)

Lemma field_valid req :
  negb (truthy (field req "text")) || negb (is_string (field req "text")) = false ->
  exists text, get_prop (req_body req) (lit "text") = VStr text /\ text <> [].
Proof.
  unfold field.
  destruct (get_prop (req_body req) (lit "text")) as [| |b|x|s|l|props];
    cbn [default_to is_string negb]; rewrite ?orb_true_r; try discriminate.
  destruct s as [|c s]; [discriminate|]. intros _. now exists (c :: s).
Qed.

Lemma starts_with_spec p : forall s,
  starts_with p s = true <-> exists post, s = p ++ post.
Proof.
  induction p as [|a p IH]; intros s; cbn [starts_with].
  - split; [intros _; now exists s | reflexivity].
  - destruct s as [|b s].
    + split; [discriminate | intros [post E]; discriminate E].
    + rewrite andb_true_iff, N.eqb_eq, IH. split.
      * intros [-> [post ->]]. now exists post.
      * intros [post E]. cbn [app] in E. injection E as -> ->. eauto.
Qed.

Lemma includes_spec sub : forall s,
  includes s sub = true <-> exists pre post, s = pre ++ sub ++ post.
Proof.
  induction s as [|c t IH]; cbn [includes]; rewrite orb_true_iff, starts_with_spec.
  - split.
    + intros [[post E] | H]; [|discriminate]. now exists [], post.
    + intros [pre [post E]]. left.
      destruct pre; [now exists post | discriminate E].
  - rewrite IH. split.
    + intros [[post E] | [pre [post E]]].
      * now exists [], post.
      * exists (c :: pre), post. cbn [app]. now rewrite E.
    + intros [[|a pre] [post E]].
      * left. now exists post.
      * right. cbn [app] in E. injection E as -> ->. eauto.
Qed.

Section HandlerFurther.

Variable toLowerCase : jsstring -> jsstring.
Variable NumberToString : num -> jsstring.
Variable ObjectToString : jsval -> exn + jsstring.
Variable leo_check : list jsstring -> jsstring -> bool.
Variable toxicity_load : num -> list jsstring -> exn + model.
Variable env : Env.

Local Abbreviation handler' :=
  (handler toLowerCase NumberToString ObjectToString leo_check toxicity_load env).
Local Abbreviation self_message' :=
  (self_message toLowerCase NumberToString ObjectToString).
Local Abbreviation getModel' := (getModel toxicity_load env).
Local Abbreviation loaded_state :=
  {| modelPromise := Some (toxicity_load (THRESH env) (LABELS env)) |}.

Lemma getModel_cases st :
  (exists settled, modelPromise st = Some settled
                   /\ getModel' st = (st, [], settled))
  \/ (modelPromise st = None
      /\ getModel' st
         = (loaded_state, [CallToxicityLoad (THRESH env) (LABELS env)],
            toxicity_load (THRESH env) (LABELS env))).
Proof.
  unfold getModel. destruct (modelPromise st) as [settled|]; [left | right]; eauto.
Qed.

(** Every way a request can go, with the result of each. *)
Lemma handler_cases st req :
  (req_method req = lit "OPTIONS" /\ handler' st req = (st, [], ended env 204))
  \/ (req_method req <> lit "OPTIONS" /\ req_method req <> lit "POST"
      /\ handler' st req = (st, [], json env 405 method_not_allowed))
  \/ (req_method req = lit "POST"
      /\ negb (truthy (field req "text")) || negb (is_string (field req "text")) = true
      /\ handler' st req = (st, [], json env 400 text_required))
  \/ (req_method req = lit "POST"
      /\ exists text,
           get_prop (req_body req) (lit "text") = VStr text /\ text <> []
           /\ ((exists e,
                  self_message' (field req "fromUser") (field req "botName") = inl e
                  /\ handler' st req
                     = (st, [CallConsoleError e], json env 500 moderation_failed))
               \/ (self_message' (field req "fromUser") (field req "botName") = inr true
                   /\ handler' st req = (st, [], json env 200 skipped))
               \/ (self_message' (field req "fromUser") (field req "botName") = inr false
                   /\ exists st1 loaded m,
                        getModel' st = (st1, loaded, m)
                        /\ ((exists e,
                               m = inl e
                               /\ handler' st req
                                  = (st1,
                                     ([CallNormalize text;
                                       CallLeoCheck (normalize toLowerCase text)]
                                      ++ loaded) ++ [CallConsoleError e],
                                     json env 500 moderation_failed))
                            \/ (exists classify e,
                                  m = inr classify
                                  /\ classify [normalize toLowerCase text] = inl e
                                  /\ handler' st req
                                     = (st1,
                                        (([CallNormalize text;
                                           CallLeoCheck (normalize toLowerCase text)]
                                          ++ loaded)
                                         ++ [CallClassify [normalize toLowerCase text]])
                                        ++ [CallConsoleError e],
                                        json env 500 moderation_failed))
                            \/ (exists classify preds,
                                  m = inr classify
                                  /\ classify [normalize toLowerCase text] = inr preds
                                  /\ handler' st req
                                     = (st1,
                                        ([CallNormalize text;
                                          CallLeoCheck (normalize toLowerCase text)]
                                         ++ loaded)
                                        ++ [CallClassify [normalize toLowerCase text]],
                                        json env 200
                                          (verdict env
                                             (leo_check (CUSTOM_WORDS env)
                                                (normalize toLowerCase text)
                                              || existsb (qualifies env) preds)
                                             text (normalize toLowerCase text)
                                             (leo_check (CUSTOM_WORDS env)
                                                (normalize toLowerCase text))
                                             (fst (score_loop env preds))))))))).
Proof.
  destruct (str_eqb (req_method req) (lit "OPTIONS")) eqn:Eo.
  { left. split; [now apply str_eqb_eq|]. unfold handler. now rewrite Eo. }
  right.
  destruct (str_eqb (req_method req) (lit "POST")) eqn:Ep.
  2:{ left. split; [|split].
      - intros H. apply str_eqb_eq in H. congruence.
      - intros H. apply str_eqb_eq in H. congruence.
      - unfold handler. now rewrite Eo, Ep. }
  right. apply str_eqb_eq in Ep.
  destruct (negb (truthy (field req "text")) || negb (is_string (field req "text")))
    eqn:Ev.
  { left. split; [exact Ep|]. split; [reflexivity|]. now apply handler_invalid. }
  right. split; [exact Ep|].
  destruct (field_valid req Ev) as [text [Ht Hne]].
  exists text. split; [exact Ht|]. split; [exact Hne|].
  rewrite (handler_post _ _ _ _ _ _ st req Ep).
  rewrite (try_block_valid _ _ _ _ _ _ st req text Ht Hne).
  destruct (self_message _ _ _ _ _) as [e | []].
  - left. eauto.
  - right. left. eauto.
  - right. right. split; [reflexivity|]. cbv zeta.
    destruct (getModel toxicity_load env st) as [[st1 loaded] [e | classify]].
    + exists st1, loaded, (inl e). split; [reflexivity|]. left. eauto.
    + exists st1, loaded, (inr classify). split; [reflexivity|]. right.
      destruct (classify _) as [e | preds] eqn:Ec.
      * left. exists classify, e. auto.
      * right. exists classify, preds. auto.
Qed.

Lemma getModel_loaded st st1 loaded m :
  getModel' st = (st1, loaded, m) ->
  (st1 = st /\ loaded = [] /\ modelPromise st = Some m)
  \/ (modelPromise st = None /\ st1 = loaded_state
      /\ loaded = [CallToxicityLoad (THRESH env) (LABELS env)]
      /\ m = toxicity_load (THRESH env) (LABELS env)).
Proof.
  destruct (getModel_cases st) as [[settled [Hs ->]] | [Hn ->]]; intros [= <- <- <-].
  - left. auto.
  - right. auto.
Qed.

(** Case analysis on a handler run, then on what [getModel] did. *)
Ltac handler_outcomes st req :=
  destruct (handler_cases st req)
    as [[Hm E]
       | [[Hno [Hnp E]]
         | [[Hm [Hv E]]
           | [Hm [text [Ht [Hne
              [[e [Hs E]]
               | [[Hs E]
                 | [Hs [st1 [loaded [m [Hg
                    [[e [Hmd E]]
                     | [[classify [e [Hmd [Hc E]]]]
                       | [classify [preds [Hmd [Hc E]]]]]]]]]]]]]]]]]]]];
  try (destruct (getModel_loaded st st1 loaded m Hg)
         as [[-> [-> Hp]] | [Hp [-> [-> Hl]]]]);
  rewrite E; unfold response_of, calls_of; cbn [fst snd app].

(** X13: the status is 204 exactly for OPTIONS and 405 exactly for a method
    that is neither OPTIONS nor POST; a POST gets 200, 400 or 500; only the
    204 has no body. *)
Theorem status_by_method st req :
  In (status (response_of (handler' st req))) [200; 204; 400; 405; 500]
  /\ (status (response_of (handler' st req)) = 204
      <-> req_method req = lit "OPTIONS")
  /\ (status (response_of (handler' st req)) = 405
      <-> req_method req <> lit "OPTIONS" /\ req_method req <> lit "POST")
  /\ (res_body (response_of (handler' st req)) = None
      <-> status (response_of (handler' st req)) = 204).
Proof.
  handler_outcomes st req; cbn [status res_body json ended];
    (split; [cbn; tauto|]);
    repeat split; try discriminate; try congruence; try tauto;
    try (intros; rewrite Hm in *; discriminate);
    try (intros [H1 H2]; rewrite Hm in *; congruence).
Qed.

(** X14: every response, whatever the method and the outcome, carries the
    three CORS headers, and the allowed origin is never empty. *)
Theorem cors_headers_on_every_response st req :
  headers (response_of (handler' st req))
  = [(lit "Access-Control-Allow-Origin", CORS_ALLOW_ORIGIN env);
     (lit "Access-Control-Allow-Methods", lit "POST,OPTIONS");
     (lit "Access-Control-Allow-Headers", lit "Content-Type, Authorization")]
  /\ CORS_ALLOW_ORIGIN env <> [].
Proof.
  split.
  - handler_outcomes st req; reflexivity.
  - unfold CORS_ALLOW_ORIGIN.
    destruct (env_CORS_ALLOW_ORIGIN env) as [[|c o]|]; discriminate.
Qed.

(** X15: an error is logged exactly when the status is 500, and a 500 always
    has the body [{error: "moderation_failed"}]. *)
Theorem error_logged_iff_500 st req :
  existsb is_console_error (calls_of (handler' st req))
  = (status (response_of (handler' st req)) =? 500)
  /\ (status (response_of (handler' st req)) = 500 ->
      res_body (response_of (handler' st req)) = Some moderation_failed).
Proof.
  handler_outcomes st req; cbn [status res_body json ended];
    (split; [reflexivity | try discriminate; reflexivity]).
Qed.

(** X16: the classifier is called only after [normalize] and the lexicon
    check, and only on the normalized text of the request, alone in its
    batch. *)
Theorem classify_only_after_lexicon st req inputs :
  In (CallClassify inputs) (calls_of (handler' st req)) ->
  exists text rest,
    get_prop (req_body req) (lit "text") = VStr text
    /\ inputs = [normalize toLowerCase text]
    /\ calls_of (handler' st req)
       = CallNormalize text :: CallLeoCheck (normalize toLowerCase text) :: rest
    /\ In (CallClassify inputs) rest.
Proof.
  handler_outcomes st req; intros H; cbn [In] in H;
    repeat (destruct H as [H | H]; try discriminate H); try contradiction;
    injection H as <-; exists text; eexists;
    (split; [exact Ht|]); (split; [reflexivity|]);
    (split; [reflexivity | cbn [In]; tauto]).
Qed.

(** X17: over any sequence of requests one process handles, [toxicity.load]
    is called at most once; with the cache already set it is never called
    and the cache stays as it is; the cache only ever changes from unset to
    the load for the configured threshold and labels. *)
Theorem model_loaded_at_most_once reqs : forall st,
  (List.length (filter is_load (snd (serve handler' st reqs))) <= 1)%nat
  /\ (modelPromise st <> None ->
      fst (serve handler' st reqs) = st
      /\ filter is_load (snd (serve handler' st reqs)) = [])
  /\ (fst (serve handler' st reqs) = st
      \/ modelPromise st = None /\ fst (serve handler' st reqs) = loaded_state).
Proof.
  induction reqs as [|req rest IH]; intros st.
  - cbn. split; [lia|]. split; auto.
  - cbn [serve].
    assert (Hstep :
      (fst (fst (handler' st req)) = st
       /\ filter is_load (calls_of (handler' st req)) = [])
      \/ (modelPromise st = None
          /\ fst (fst (handler' st req)) = loaded_state
          /\ List.length (filter is_load (calls_of (handler' st req))) = 1%nat)).
    { handler_outcomes st req; try (left; split; reflexivity);
        right; split; try assumption; split; reflexivity. }
    unfold calls_of in Hstep.
    destruct (handler' st req) as [[st1 calls] r]. cbn [fst snd] in Hstep.
    specialize (IH st1).
    destruct (serve handler' st1 rest) as [st2 later]. cbn [fst snd] in *.
    rewrite filter_app, length_app.
    destruct IH as [IH1 [IH2 IH3]].
    destruct Hstep as [[-> Hc] | [Hn [-> Hc]]].
    + rewrite Hc. cbn [List.length app]. split; [lia|]. split; [|exact IH3].
      intros Hset. destruct (IH2 Hset) as [-> ->]. auto.
    + destruct (IH2 ltac:(discriminate)) as [-> Hl]. rewrite Hl.
      cbn [List.length]. split; [lia|]. split; [congruence | auto].
Qed.

(** X18: a failed load is not retried: once the cache holds a failure, every
    request that reaches the classifier gets the 500 with that same error,
    after the lexicon check and with no new call of [toxicity.load]. *)
Theorem failed_load_is_not_retried st req text e :
  modelPromise st = Some (inl e) ->
  req_method req = lit "POST" ->
  get_prop (req_body req) (lit "text") = VStr text -> text <> [] ->
  self_message' (field req "fromUser") (field req "botName") = inr false ->
  handler' st req
  = (st,
     [CallNormalize text; CallLeoCheck (normalize toLowerCase text);
      CallConsoleError e],
     json env 500 moderation_failed).
Proof.
  intros Hp Hm Ht Hne Hs.
  rewrite (handler_post _ _ _ _ _ _ st req Hm).
  rewrite (try_block_valid _ _ _ _ _ _ st req text Ht Hne), Hs. cbv zeta.
  unfold getModel. rewrite Hp. reflexivity.
Qed.

(** X19: for non-empty strings, the self-message condition holds exactly
    when the lower-cased [botName] occurs somewhere inside the lower-cased
    [fromUser]. *)
Theorem self_message_iff_substring f b :
  f <> [] -> b <> [] ->
  self_message' (VStr f) (VStr b) = inr true
  <-> exists pre post, toLowerCase f = pre ++ toLowerCase b ++ post.
Proof.
  intros Hf Hb. rewrite self_message_strings by assumption.
  rewrite <- includes_spec. split; [now intros [= ->] | now intros ->].
Qed.

(** X20: without a [botName], or without a [fromUser], a request with a
    valid text is never skipped, even when the other one is an object: the
    text is normalized and checked against the lexicon. *)
Theorem no_skip_without_bot_name st req text :
  req_method req = lit "POST" ->
  get_prop (req_body req) (lit "text") = VStr text -> text <> [] ->
  truthy (field req "botName") = false \/ truthy (field req "fromUser") = false ->
  res_prop (response_of (handler' st req)) "skipped" = VUndefined
  /\ exists rest,
       calls_of (handler' st req)
       = CallNormalize text :: CallLeoCheck (normalize toLowerCase text) :: rest.
Proof.
  intros Hm Ht Hne Hf.
  assert (Hs : self_message' (field req "fromUser") (field req "botName") = inr false).
  { unfold self_message. destruct Hf as [-> | ->]; [reflexivity|].
    now rewrite andb_false_r. }
  rewrite (handler_post _ _ _ _ _ _ st req Hm).
  rewrite (try_block_valid _ _ _ _ _ _ st req text Ht Hne), Hs. cbv zeta.
  destruct (getModel toxicity_load env st) as [[st1 loaded] [e | classify]].
  - split; [reflexivity | eexists; reflexivity].
  - destruct (classify _) as [e | preds];
      (split; [reflexivity | eexists; reflexivity]).
Qed.

(** X21: a verdict echoes the request and the configuration: the original
    text, the lexicon result, the score map of the loop, the threshold and
    the labels in use. *)
Theorem verdict_echoes_request st req text classify preds :
  req_method req = lit "POST" ->
  get_prop (req_body req) (lit "text") = VStr text -> text <> [] ->
  self_message' (field req "fromUser") (field req "botName") = inr false ->
  snd (getModel' st) = inr classify ->
  classify [normalize toLowerCase text] = inr preds ->
  let r := response_of (handler' st req) in
  res_prop r "input" = VStr text
  /\ res_prop r "reasons"
     = VObj [(lit "lexiconProfanity",
              VBool (leo_check (CUSTOM_WORDS env) (normalize toLowerCase text)));
             (lit "toxicityScores", VObj (fst (score_loop env preds)));
             (lit "threshold", VNum (THRESH env));
             (lit "labels", VArr (map VStr (LABELS env)))].
Proof.
  intros Hm Ht Hne Hs Hg Hc r. subst r.
  rewrite (handler_post _ _ _ _ _ _ st req Hm).
  rewrite (try_block_valid _ _ _ _ _ _ st req text Ht Hne), Hs. cbv zeta.
  destruct (getModel toxicity_load env st) as [[st1 loaded] m].
  cbn [snd] in Hg. subst m. rewrite Hc.
  split; reflexivity.
Qed.

End HandlerFurther.

(** ** Instances of the further properties *)

Lemma classify_only_after_lexicon_witness :
  exists text rest,
    get_prop (req_body idiot_request) (lit "text") = VStr text
    /\ [lit "you are such an idiotiii"] = [normalize toLowerCase_latin1 text]
    /\ calls_of (demo_handler (demo_load (Fin (1 # 100))) cold idiot_request)
       = CallNormalize text
           :: CallLeoCheck (normalize toLowerCase_latin1 text) :: rest
    /\ In (CallClassify [lit "you are such an idiotiii"]) rest.
Proof.
  apply (classify_only_after_lexicon
           toLowerCase_latin1 demo_number_string demo_object_string demo_leo
           (demo_load (Fin (1 # 100))) no_env cold idiot_request
           [lit "you are such an idiotiii"]).
  vm_compute. tauto.
Defined.

Lemma failed_load_is_not_retried_witness :
  demo_handler (demo_load (Fin (1 # 100))) failed_cache idiot_request
  = (failed_cache,
     [CallNormalize (lit "You are such an idiot!!!");
      CallLeoCheck (lit "you are such an idiotiii");
      CallConsoleError (lit "fetch failed")],
     json no_env 500 moderation_failed).
Proof.
  apply (failed_load_is_not_retried
           toLowerCase_latin1 demo_number_string demo_object_string demo_leo
           (demo_load (Fin (1 # 100))) no_env failed_cache idiot_request
           (lit "You are such an idiot!!!") (lit "fetch failed")
           eq_refl eq_refl eq_refl ltac:(discriminate) eq_refl).
Defined.

Lemma self_message_iff_substring_witness :
  exists pre post,
    toLowerCase_latin1 (lit "ModBot-7")
    = pre ++ toLowerCase_latin1 (lit "modbot") ++ post.
Proof.
  apply (proj1 (self_message_iff_substring
                  toLowerCase_latin1 demo_number_string demo_object_string
                  (lit "ModBot-7") (lit "modbot")
                  ltac:(discriminate) ltac:(discriminate))).
  reflexivity.
Defined.

Lemma no_skip_without_bot_name_witness :
  res_prop (response_of (demo_handler failing_load cold idiot_request)) "skipped"
  = VUndefined
  /\ exists rest,
       calls_of (demo_handler failing_load cold idiot_request)
       = CallNormalize (lit "You are such an idiot!!!")
           :: CallLeoCheck
                (normalize toLowerCase_latin1 (lit "You are such an idiot!!!"))
           :: rest.
Proof.
  apply (no_skip_without_bot_name
           toLowerCase_latin1 demo_number_string demo_object_string demo_leo
           failing_load no_env cold idiot_request
           (lit "You are such an idiot!!!")
           eq_refl eq_refl ltac:(discriminate) (or_introl eq_refl)).
Defined.

Lemma verdict_echoes_request_witness :
  res_prop
    (response_of (demo_handler (demo_load (Fin (1 # 100))) cold idiot_request))
    "input"
  = VStr (lit "You are such an idiot!!!").
Proof.
  apply (proj1 (verdict_echoes_request
           toLowerCase_latin1 demo_number_string demo_object_string demo_leo
           (demo_load (Fin (1 # 100))) no_env cold idiot_request
           (lit "You are such an idiot!!!")
           (demo_classify (Fin (1 # 100)))
           [demo_prediction (lit "insult") (Fin (1 # 100))]
           eq_refl eq_refl ltac:(discriminate) eq_refl eq_refl eq_refl)).
Defined.

(** Two requests on a cold process: the model is loaded by the first and
    reused by the second. *)
Example two_requests_one_load :
  filter is_load
    (snd (serve (demo_handler (demo_load (Fin (1 # 100)))) cold
            [idiot_request; idiot_request]))
  = [CallToxicityLoad (THRESH no_env) default_labels].
Proof. reflexivity. Qed.

